(** * packetcache: a shallow embedding of [packetcache.go]

    The cache of recently sent RTP packets of the relay: a ring of
    fixed-size entries indexed by a 16-bit position, a 32-bit arrival
    bitmap anchored at [first], and the loss statistics of the stream.

    Conventions of the embedding.
    - [uint16] and [uint32] values are integers of [Z]; every Go operation
      that can leave the range is followed by its wrap-around ([wrap16],
      [wrap32]).  Go's [int] is taken to be 64 bits wide ([wrapInt]).
    - A method of [*Cache] is a computation in the monad [M]: it receives
      the cache, returns the cache it leaves behind, and either a result
      or [Panic].  The cache left behind by a panic is the one the Go code
      had built when the run-time error was raised (the deferred
      [Unlock] runs, the mutations made so far stay).
    - The mutex is not modelled: every method holds it from its first to
      its last statement, so a method is one atomic step.
    - A [[]byte] argument that a method writes to ([result]) is modelled
      by the bytes of its backing array from the start of the slice up to
      its capacity; the method returns the updated bytes next to its Go
      result. *)

From Stdlib Require Import ZArith Lia Bool.
From Stdlib Require Import Strings.Byte.
From stdpp Require Import base list.

Local Open Scope Z_scope.

(** ** Machine integers *)

Definition wrap16 (x : Z) : Z := x mod 65536.
Definition wrap32 (x : Z) : Z := x mod 4294967296.

(** Go's [int] on a 64-bit platform, two's complement. *)
Definition wrapInt (x : Z) : Z :=
  (x + 9223372036854775808) mod 18446744073709551616 - 9223372036854775808.

(** [^x] on a [uint32]. *)
Definition not32 (x : Z) : Z := Z.lxor x 4294967295.

(** [len(s)] as a Go [int]. *)
Definition len {A} (l : list A) : Z := Z.of_nat (length l).

(** ** Outcomes and the method monad *)

(** What a call does: it returns, it raises a run-time panic, or (for the
    one loop of the package that is not bounded by its syntax) it is still
    running when the fuel given to the model is spent. *)
Inductive outcome (R : Type) : Type :=
| Ret (r : R)
| Panic
| OutOfFuel.
Arguments Ret {R} r.
Arguments Panic {R}.
Arguments OutOfFuel {R}.

(** ** Data *)

Definition BufSize : Z := 1500.

(** The size of an [entry] in bytes: two [uint16] and the buffer. *)
Definition entrySize : Z := 2 + 2 + BufSize.

(** [type entry struct]; [entry_buf] always holds [BufSize] bytes. *)
Record entry : Type := mkEntry {
  entry_seqno : Z;
  entry_length : Z;
  entry_buf : list byte
}.

(** [type Cache struct], without its mutex. *)
Record Cache : Type := mkCache {
  last : Z;
  cycle : Z;
  lastValid : bool;
  expected : Z;
  lost : Z;
  totalLost : Z;
  first : Z;
  bitmap : Z;
  tail : Z;
  entries : list entry
}.

Definition with_last (v : Z) (c : Cache) : Cache :=
  mkCache v (cycle c) (lastValid c) (expected c) (lost c) (totalLost c)
          (first c) (bitmap c) (tail c) (entries c).
Definition with_cycle (v : Z) (c : Cache) : Cache :=
  mkCache (last c) v (lastValid c) (expected c) (lost c) (totalLost c)
          (first c) (bitmap c) (tail c) (entries c).
Definition with_lastValid (v : bool) (c : Cache) : Cache :=
  mkCache (last c) (cycle c) v (expected c) (lost c) (totalLost c)
          (first c) (bitmap c) (tail c) (entries c).
Definition with_expected (v : Z) (c : Cache) : Cache :=
  mkCache (last c) (cycle c) (lastValid c) v (lost c) (totalLost c)
          (first c) (bitmap c) (tail c) (entries c).
Definition with_lost (v : Z) (c : Cache) : Cache :=
  mkCache (last c) (cycle c) (lastValid c) (expected c) v (totalLost c)
          (first c) (bitmap c) (tail c) (entries c).
Definition with_totalLost (v : Z) (c : Cache) : Cache :=
  mkCache (last c) (cycle c) (lastValid c) (expected c) (lost c) v
          (first c) (bitmap c) (tail c) (entries c).
Definition with_first (v : Z) (c : Cache) : Cache :=
  mkCache (last c) (cycle c) (lastValid c) (expected c) (lost c) (totalLost c)
          v (bitmap c) (tail c) (entries c).
Definition with_bitmap (v : Z) (c : Cache) : Cache :=
  mkCache (last c) (cycle c) (lastValid c) (expected c) (lost c) (totalLost c)
          (first c) v (tail c) (entries c).
Definition with_tail (v : Z) (c : Cache) : Cache :=
  mkCache (last c) (cycle c) (lastValid c) (expected c) (lost c) (totalLost c)
          (first c) (bitmap c) v (entries c).
Definition with_entries (v : list entry) (c : Cache) : Cache :=
  mkCache (last c) (cycle c) (lastValid c) (expected c) (lost c) (totalLost c)
          (first c) (bitmap c) (tail c) v.

(** A method of [*Cache]. *)
Definition M (R : Type) : Type := Cache -> outcome R * Cache.

Definition M_ret {R} (r : R) : M R := fun c => (Ret r, c).
Definition M_bind {R S} (f : R -> M S) (m : M R) : M S :=
  fun c => match m c with
           | (Ret r, c') => f r c'
           | (Panic, c') => (Panic, c')
           | (OutOfFuel, c') => (OutOfFuel, c')
           end.

#[export] Instance M_mret : MRet M := @M_ret.
#[export] Instance M_mbind : MBind M := @M_bind.

Definition panic {R} : M R := fun c => (Panic, c).
Definition lift {R} (o : outcome R) : M R := fun c => (o, c).
Definition get : M Cache := fun c => (Ret c, c).
Definition modify (f : Cache -> Cache) : M unit := fun c => (Ret tt, f c).

(** ** Slices *)

(** The largest allocation that Go's runtime accepts on a 64-bit
    platform ([maxAlloc], [1 << 48] bytes). *)
Definition maxAlloc : Z := 281474976710656.

(** [make([]T, n)] for elements of [size] bytes: the run-time panic of
    [makeslice] when [n] is negative or [n] elements take more than
    [maxAlloc] bytes.  Within that limit the allocation is taken to
    succeed: running out of memory is a fatal error of the runtime, not
    a panic, and outside the model. *)
Definition make {A} (size : Z) (zero : A) (n : Z) : outcome (list A) :=
  if (n <? 0) || (size * n >? maxAlloc) then Panic
  else Ret (replicate (Z.to_nat n) zero).

(** [s[i]], bounds-checked. *)
Definition index {A} (s : list A) (i : Z) : outcome A :=
  if (0 <=? i) && (i <? len s)
  then match s !! Z.to_nat i with Some a => Ret a | None => Panic end
  else Panic.

(** [s[lo:hi]] for a slice whose capacity is its length. *)
Definition slice {A} (s : list A) (lo hi : Z) : outcome (list A) :=
  if (0 <=? lo) && (lo <=? hi) && (hi <=? len s)
  then Ret (take (Z.to_nat (hi - lo)) (drop (Z.to_nat lo) s))
  else Panic.

(** [copy(dst, src)]: the new contents of [dst] and the number of
    elements copied. *)
Definition copy {A} (dst src : list A) : list A * Z :=
  let n := Nat.min (length dst) (length src) in
  (take n src ++ drop n dst, Z.of_nat n).

(** [copy(dst[off:], src)] seen from [dst]; [off] is within bounds. *)
Definition copy_at {A} (off : Z) (dst src : list A) : list A :=
  take (Z.to_nat off) dst ++ fst (copy (drop (Z.to_nat off) dst) src).

Definition zero_buf : list byte := replicate (Z.to_nat BufSize) x00.
Definition zero_entry : entry := mkEntry 0 0 zero_buf.

(** ** Construction *)

(** [func New(capacity int) *Cache]; [None] is [nil]. *)
Definition New (capacity : Z) : outcome (option Cache) :=
  if capacity >? 65535 then Ret None
  else match make entrySize zero_entry capacity with
       | Ret es => Ret (Some (mkCache 0 0 false 0 0 0 0 0 0 es))
       | Panic => Panic
       | OutOfFuel => OutOfFuel
       end.

(** ** Sequence numbers *)

Definition seqnoInvalid (seqno reference : Z) : bool :=
  if Z.land (wrap16 (seqno - reference)) 32768 =? 0 then false
  else if wrap16 (reference - seqno) >? 256 then true
  else false.

(** ** The arrival bitmap *)

(** [func (cache *Cache) set(seqno uint16)] *)
Definition set (seqno : Z) : M unit :=
  cache ← get;
  if (bitmap cache =? 0) || seqnoInvalid seqno (first cache) then
    modify (with_first seqno);;
    modify (with_bitmap 1)
  else if negb (Z.land (wrap16 (seqno - first cache)) 32768 =? 0) then
    mret tt
  else if wrap16 (seqno - first cache) <? 32 then
    modify (with_bitmap
      (Z.lor (bitmap cache)
             (wrap32 (Z.shiftl 1 (wrap16 (seqno - first cache))))))
  else
    let shift := wrap16 (wrap16 (seqno - first cache) - 31) in
    modify (with_bitmap (Z.shiftr (bitmap cache) shift));;
    modify (with_first (wrap16 (first cache + shift)));;
    cache ← get;
    modify (with_bitmap
      (Z.lor (bitmap cache)
             (wrap32 (Z.shiftl 1 (wrap16 (seqno - first cache)))))).

(** ** Store *)

(** Lines 82 to 99 of [Store]: the loss statistics. *)
Definition updateStats (seqno : Z) : M unit :=
  cache ← get;
  if negb (lastValid cache) || seqnoInvalid seqno (last cache) then
    modify (with_last seqno);;
    modify (with_lastValid true);;
    modify (with_expected (wrap32 (expected cache + 1)))
  else if negb (Z.land (wrap16 (last cache - seqno)) 32768 =? 0) then
    modify (with_expected
      (wrap32 (expected cache + wrap16 (seqno - last cache))));;
    modify (with_lost
      (wrap32 (lost cache + wrap16 (wrap16 (seqno - last cache) - 1))));;
    (if seqno <? last cache
     then modify (with_cycle (wrap16 (cycle cache + 1)))
     else mret tt);;
    modify (with_last seqno)
  else
    if lost cache >? 0
    then modify (with_lost (wrap32 (lost cache - 1)))
    else mret tt.

(** Lines 103 to 107 of [Store]: the write at [tail]. *)
Definition writeEntry (seqno : Z) (buf : list byte) : M Z :=
  cache ← get;
  let i := tail cache in
  e ← lift (index (entries cache) i);
  let e := mkEntry seqno (wrap16 (len buf)) (fst (copy (entry_buf e) buf)) in
  modify (with_entries (<[Z.to_nat i := e]> (entries cache)));;
  if wrap16 (len (entries cache)) =? 0 then panic
  else
    modify (with_tail (wrap16 (i + 1) mod wrap16 (len (entries cache))));;
    mret i.

(** [func (cache *Cache) Store(seqno uint16, buf []byte) (uint16, uint16)] *)
Definition Store (seqno : Z) (buf : list byte) : M (Z * Z) :=
  updateStats seqno;;
  set seqno;;
  i ← writeEntry seqno buf;
  cache ← get;
  mret (first cache, i).

(** [func (cache *Cache) Expect(n int)] *)
Definition Expect (n : Z) : M unit :=
  if n <=? 0 then mret tt
  else
    cache ← get;
    modify (with_expected (wrap32 (expected cache + wrap32 n))).

(** ** Lookups *)

(** [uint16(copy(result[:e.length], e.buf[:]))], the tail of the three
    lookups: the count and the new contents of [result]. *)
Definition copyOut (e : entry) (result : list byte) : outcome (Z * list byte) :=
  match slice result 0 (entry_length e) with
  | Ret dst =>
      let '(dst', n) := copy dst (entry_buf e) in
      Ret (wrap16 n, dst' ++ drop (Z.to_nat (entry_length e)) result)
  | Panic => Panic
  | OutOfFuel => OutOfFuel
  end.

(** The [range] loop of [Get] over the entries still to visit. *)
Fixpoint Get_loop (es : list entry) (seqno : Z) (result : list byte)
  : outcome (Z * list byte) :=
  match es with
  | [] => Ret (0, result)
  | e :: es' =>
      if (entry_length e =? 0) || negb (entry_seqno e =? seqno)
      then Get_loop es' seqno result
      else copyOut e result
  end.

(** [func (cache *Cache) Get(seqno uint16, result []byte) uint16] *)
Definition Get (seqno : Z) (result : list byte) : M (Z * list byte) :=
  cache ← get;
  lift (Get_loop (entries cache) seqno result).

(** [func (cache *Cache) GetLast(result []byte) uint16] *)
Definition GetLast (result : list byte) : M (Z * list byte) :=
  cache ← get;
  let i := wrap16 (tail cache - 1) in
  let i := if i >=? wrap16 (len (entries cache)) then 0 else i in
  e ← lift (index (entries cache) i);
  lift (copyOut e result).

(** [func (cache *Cache) GetAt(seqno uint16, index uint16, result []byte) uint16] *)
Definition GetAt (seqno : Z) (idx : Z) (result : list byte)
  : M (Z * list byte) :=
  cache ← get;
  if idx >? len (entries cache) then mret (0, result)
  else
    e ← lift (index (entries cache) idx);
    if negb (entry_seqno e =? seqno) then mret (0, result)
    else lift (copyOut e result).

(** ** Resizing *)

(** [copy(dst[off:], src)], with the bounds check of [dst[off:]]. *)
Definition copy_from {A} (dst : list A) (off : Z) (src : list A)
  : outcome (list A) :=
  if (0 <=? off) && (off <=? len dst) then Ret (copy_at off dst src)
  else Panic.

(** [func (cache *Cache) resize(capacity int)] *)
Definition resize (capacity : Z) : M unit :=
  cache ← get;
  let old := entries cache in
  if len old =? capacity then mret tt
  else
    new ← lift (make entrySize zero_entry capacity);
    if capacity >? len old then
      pre ← lift (slice old 0 (tail cache));
      let new := fst (copy new pre) in
      rest ← lift (slice old (tail cache) (len old));
      new ← lift (copy_from new (wrapInt (wrapInt (tail cache + capacity) - len old)) rest);
      modify (with_entries new)
    else if capacity >? tail cache then
      pre ← lift (slice old 0 (tail cache));
      let new := fst (copy new pre) in
      rest ← lift (slice old (wrapInt (wrapInt (tail cache + len old) - capacity)) (len old));
      new ← lift (copy_from new (tail cache) rest);
      modify (with_entries new)
    else
      recent ← lift (slice old (wrapInt (tail cache - capacity)) (tail cache));
      let new := fst (copy new recent) in
      modify (with_tail 0);;
      modify (with_entries new).

(** [func (cache *Cache) Resize(capacity int)] *)
Definition Resize (capacity : Z) : M unit := resize capacity.

(** [func (cache *Cache) ResizeCond(capacity int) bool]; [/] on [int]
    truncates towards zero. *)
Definition ResizeCond (capacity : Z) : M bool :=
  cache ← get;
  let current := len (entries cache) in
  if (current >=? Z.quot capacity 2) && (current <? wrapInt (capacity * 2))
  then mret false
  else if (tail cache >? Z.quot current 2) && (tail cache >? Z.quot capacity 2)
  then mret false
  else resize capacity;; mret true.

(** ** Draining the bitmap *)

(** The loop [for bitmap&1 == 0 { bitmap >>= 1; first++ }]; [None] when
    it has not left after [fuel] rounds. *)
Fixpoint BitmapGet_loop (fuel : nat) (bitmap first : Z) : option (Z * Z) :=
  if Z.land bitmap 1 =? 0 then
    match fuel with
    | O => None
    | S fuel' => BitmapGet_loop fuel' (Z.shiftr bitmap 1) (wrap16 (first + 1))
    end
  else Some (bitmap, first).

(** [func (cache *Cache) BitmapGet() (bool, uint16, uint16)]; the loop
    is given one round per bit of a [uint32]. *)
Definition BitmapGet : M (bool * Z * Z) :=
  cache ← get;
  let first0 := first cache in
  let bitmap0 := Z.land (not32 (bitmap cache)) 131071 in
  modify (with_bitmap (Z.shiftr (bitmap cache) 17));;
  modify (with_first (wrap16 (first cache + 17)));;
  if bitmap0 =? 0 then mret (false, first0, 0)
  else
    match BitmapGet_loop 32 bitmap0 first0 with
    | Some (bitmap1, first1) =>
        mret (true, first1, wrap16 (Z.shiftr bitmap1 1))
    | None => lift OutOfFuel
    end.

(** ** Statistics *)

(** [func (cache *Cache) GetStats(reset bool) (uint32, uint32, uint32, uint32)] *)
Definition GetStats (reset : bool) : M (Z * Z * Z * Z) :=
  cache ← get;
  let expected0 := expected cache in
  let lost0 := lost cache in
  let totalLost0 := wrap32 (totalLost cache + lost cache) in
  let eseqno := Z.lor (wrap32 (Z.shiftl (cycle cache) 16)) (last cache) in
  (if reset then
     modify (with_expected 0);;
     modify (with_totalLost (wrap32 (totalLost cache + lost cache)));;
     modify (with_lost 0)
   else mret tt);;
  mret (expected0, lost0, totalLost0, eseqno).

(** ** Public operations as data *)

Inductive op : Type :=
| OpStore (seqno : Z) (buf : list byte)
| OpExpect (n : Z)
| OpGet (seqno : Z) (result : list byte)
| OpGetLast (result : list byte)
| OpGetAt (seqno idx : Z) (result : list byte)
| OpResize (capacity : Z)
| OpResizeCond (capacity : Z)
| OpBitmapGet
| OpGetStats (reset : bool).

(** The cache a call leaves behind, whatever its outcome. *)
Definition exec (o : op) (c : Cache) : Cache :=
  match o with
  | OpStore seqno buf => snd (Store seqno buf c)
  | OpExpect n => snd (Expect n c)
  | OpGet seqno result => snd (Get seqno result c)
  | OpGetLast result => snd (GetLast result c)
  | OpGetAt seqno idx result => snd (GetAt seqno idx result c)
  | OpResize capacity => snd (Resize capacity c)
  | OpResizeCond capacity => snd (ResizeCond capacity c)
  | OpBitmapGet => snd (BitmapGet c)
  | OpGetStats reset => snd (GetStats reset c)
  end.

Definition run (os : list op) (c : Cache) : Cache :=
  foldl (fun c o => exec o c) c os.

(** A cache as [New] builds it. *)
Definition fresh (capacity : Z) : Cache :=
  mkCache 0 0 false 0 0 0 0 0 0 (replicate (Z.to_nat capacity) zero_entry).

(** ** Vocabulary of the properties *)

(** The cache that [Store] hands to its ring write. *)
Definition beforeWrite (seqno : Z) (c : Cache) : Cache :=
  snd (set seqno (snd (updateStats seqno c))).

(** The statistics of a cache, the bitmap and the ring blanked. *)
Definition statsOnly (c : Cache) : Cache :=
  mkCache (last c) (cycle c) (lastValid c) (expected c) (lost c) (totalLost c)
          0 0 0 [].

(** [tail] is a slot of a ring that [New] could have built. *)
Definition ring_ok (c : Cache) : Prop :=
  0 <= tail c < len (entries c) /\ len (entries c) <= 65535.

(** The ring of four slots after the packets 1, 2, 3, 4 of one byte
    each. *)
Definition ring_1234 : Cache :=
  run [OpStore 1 [x01]; OpStore 2 [x02]; OpStore 3 [x03]; OpStore 4 [x04]]
      (fresh 4).

(** The entry that [Store] leaves in an empty slot. *)
Definition stored (seqno : Z) (p : list byte) : entry :=
  mkEntry seqno (wrap16 (len p)) (fst (copy zero_buf p)).

(** The ring of four slots after the packets 1 to 4, then grown to eight
    slots. *)
Definition grown (p1 p2 p3 p4 : list byte) : Cache :=
  run [OpStore 1 p1; OpStore 2 p2; OpStore 3 p3; OpStore 4 p4; OpResize 8]
      (fresh 4).

(** The number of trailing zero bits of a number, by its binary
    digits. *)
Fixpoint ctz_pos (p : positive) : Z :=
  match p with
  | xO p' => 1 + ctz_pos p'
  | _ => 0
  end.

Definition ctz (x : Z) : Z :=
  match x with
  | Zpos p => ctz_pos p
  | _ => 0
  end.

(** The 17 bits that [BitmapGet] drains, complemented. *)
Definition missing (c : Cache) : Z := Z.land (not32 (bitmap c)) 131071.

(** What one call may do to [lost] and [totalLost], as values of [Z]
    without wrap-around below zero: leave them; take one from a positive
    [lost]; add to [lost] the [gap - 1] packets skipped by a step of
    [gap >= 1] sequence numbers; or fold [lost] into [totalLost] and
    clear it.  Only the two additions are taken modulo 2^32. *)
Inductive counters_step (l t : Z) : Z -> Z -> Prop :=
| cs_keep : counters_step l t l t
| cs_retract : 0 < l -> counters_step l t (l - 1) t
| cs_gap (gap : Z) :
    1 <= gap <= 32768 -> counters_step l t (wrap32 (l + (gap - 1))) t
| cs_reset : counters_step l t 0 (wrap32 (t + l)).

Definition counters_ok (c : Cache) : Prop :=
  0 <= lost c < 4294967296 /\ 0 <= totalLost c < 4294967296.

(** The cache that [resize] leaves when it returns, branch by branch:
    growing keeps the slots below [tail] and moves the others up, past a
    run of empty slots; shrinking to more than [tail] slots keeps the
    slots below [tail] and the last of the others; shrinking further
    keeps the slots just below [tail] and restarts [tail] at 0. *)
Definition resized (capacity : Z) (c : Cache) : Cache :=
  let old := entries c in
  let t := Z.to_nat (tail c) in
  if len old =? capacity then c
  else if capacity >? len old then
    with_entries
      (take t old ++
       replicate (Z.to_nat (capacity - len old)) zero_entry ++
       drop t old) c
  else if capacity >? tail c then
    with_entries
      (take t old ++ drop (Z.to_nat (tail c + len old - capacity)) old) c
  else
    with_entries
      (take (Z.to_nat capacity) (drop (Z.to_nat (tail c - capacity)) old))
      (with_tail 0 c).

(** Every slot has its [BufSize] bytes. *)
Definition bufs_ok (c : Cache) : Prop :=
  Forall (fun e => length (entry_buf e) = 1500%nat) (entries c).

(** The calls whose capacity argument is one that [New] accepts for a
    ring with at least one slot. *)
Definition op_ok (o : op) : Prop :=
  match o with
  | OpResize capacity | OpResizeCond capacity => 1 <= capacity <= 65535
  | _ => True
  end.

(** [Get]'s test on a slot: it is in use and holds [seqno]. *)
Definition holds (seqno : Z) (e : entry) : bool :=
  negb ((entry_length e =? 0) || negb (entry_seqno e =? seqno)).

(** What every call keeps of a cache that [New] built with at least one
    slot, when no ring of another size class is asked for. *)
Definition inv (c : Cache) : Prop := ring_ok c /\ bufs_ok c.

(** A run of [Store] calls, each given by its sequence number and
    payload. *)
Definition stores (ss : list (Z * list byte)) : list op :=
  map (fun sb => OpStore (fst sb) (snd sb)) ss.

(** A cache whose [tail] lies within its ring, with sizes that an [int]
    holds with room to spare, and whole buffers. *)
Definition resizable (c : Cache) : Prop :=
  0 <= tail c <= len (entries c) /\
  len (entries c) < 4611686018427387904 /\
  bufs_ok c.

(** Whether the bitmap has sequence number [x] in its window and marked
    as arrived. *)
Definition recorded (x : Z) (c : Cache) : bool :=
  (wrap16 (x - first c) <? 32) && Z.testbit (bitmap c) (wrap16 (x - first c)).

(** The bitmap and its anchor hold values of their Go types. *)
Definition window_ok (c : Cache) : Prop :=
  0 <= first c < 65536 /\ 0 <= bitmap c < 4294967296.

(** Packets with consecutive sequence numbers from [s] on, wrapping
    after 65535. *)
Fixpoint consecutive (s : Z) (ps : list (list byte)) : list (Z * list byte) :=
  match ps with
  | [] => []
  | p :: ps' => (s, p) :: consecutive (wrap16 (s + 1)) ps'
  end.

(** The extended sequence number that [GetStats] reports. *)
Definition extSeqno (c : Cache) : Z :=
  Z.lor (wrap32 (Z.shiftl (cycle c) 16)) (last c).

(** The statistics hold values of their Go types. *)
Definition stats_ok (c : Cache) : Prop :=
  0 <= last c < 65536 /\ 0 <= cycle c < 65536 /\
  0 <= expected c < 4294967296 /\ 0 <= lost c < 4294967296.

(** The arrival window of a cache, the statistics and the ring
    blanked. *)
Definition windowOnly (c : Cache) : Cache :=
  mkCache 0 0 false 0 0 0 (first c) (bitmap c) 0 [].

(** The most that a call can add to [expected]. *)
Definition growth (o : op) : Z :=
  match o with
  | OpStore _ _ => 32768
  | OpExpect n => if n <=? 0 then 0 else wrap32 n
  | _ => 0
  end.

Definition total_growth (os : list op) : Z :=
  foldr (fun o acc => growth o + acc) 0 os.

(** A number of entries that [make] accepts. *)
Definition allocatable (capacity : Z) : Prop :=
  0 <= capacity /\ entrySize * capacity <= maxAlloc.

(** Unfolds the monad of a method applied to a cache. *)
Ltac run_M :=
  unfold mbind, M_mbind, M_bind, mret, M_mret, M_ret, get, modify, lift, panic;
  cbn beta iota.

(** Destructs every outcome and test a method's result hangs on. *)
Ltac split_cases :=
  repeat match goal with
         | |- context [match ?x with _ => _ end] => destruct x
         end.

(** Destructs the tests of a method before the outcomes behind them. *)
Ltac split_tests :=
  repeat match goal with
         | |- context [if ?b then _ else _] => destruct b
         end;
  cbn beta iota.

(** * Properties *)

(** ** Wrap-around arithmetic *)

Lemma wrap16_range (x : Z) : 0 <= wrap16 x < 65536.
Proof. unfold wrap16. apply Z.mod_pos_bound. lia. Qed.

Lemma wrap32_range (x : Z) : 0 <= wrap32 x < 4294967296.
Proof. unfold wrap32. apply Z.mod_pos_bound. lia. Qed.

Lemma wrap16_small (x : Z) : 0 <= x < 65536 -> wrap16 x = x.
Proof. intros H. unfold wrap16. apply Z.mod_small. exact H. Qed.

Lemma wrap32_small (x : Z) : 0 <= x < 4294967296 -> wrap32 x = x.
Proof. intros H. unfold wrap32. apply Z.mod_small. exact H. Qed.

Lemma wrap16_sub_l (a b : Z) : wrap16 (wrap16 a - b) = wrap16 (a - b).
Proof. unfold wrap16. apply Zminus_mod_idemp_l. Qed.

Lemma wrap16_sub_r (a b : Z) : wrap16 (a - wrap16 b) = wrap16 (a - b).
Proof. unfold wrap16. apply Zminus_mod_idemp_r. Qed.

Lemma wrap16_add_l (a b : Z) : wrap16 (wrap16 a + b) = wrap16 (a + b).
Proof. unfold wrap16. apply Zplus_mod_idemp_l. Qed.

Lemma wrap32_add_r (a b : Z) : wrap32 (a + wrap32 b) = wrap32 (a + b).
Proof. unfold wrap32. apply Zplus_mod_idemp_r. Qed.

(** A backward distance [d] read as a [uint16]. *)
Lemma wrap16_neg (d : Z) : 0 < d <= 65536 -> wrap16 (- d) = 65536 - d.
Proof.
  intros H. unfold wrap16.
  symmetry. apply (Z.mod_unique_pos _ _ (-1)); lia.
Qed.

(** The test [x & 0x8000 == 0] on a [uint16] asks whether [x] lies in
    the lower half of the range. *)
Lemma top_bit_clear (x : Z) :
  0 <= x < 65536 -> (Z.land x 32768 =? 0) = (x <? 32768).
Proof.
  intros Hx.
  assert (Hbit : Z.testbit (Z.land x 32768) 15 = (32768 <=? x)).
  { rewrite Z.land_spec. change 32768 with (2 ^ 15) at 1.
    rewrite Z.pow2_bits_true by lia. rewrite andb_true_r.
    rewrite Z.testbit_eqb by lia. change (2 ^ 15) with 32768.
    destruct (Z.leb_spec 32768 x) as [Hge | Hlt].
    - replace (x / 32768) with 1; [reflexivity |].
      apply (Z.div_unique _ _ _ (x - 32768)); lia.
    - rewrite Z.div_small by lia. reflexivity. }
  destruct (Z.ltb_spec x 32768) as [Hlt | Hge].
  - apply Z.eqb_eq. apply Z.bits_inj'. intros n Hn.
    rewrite Z.bits_0, Z.land_spec.
    change 32768 with (2 ^ 15).
    destruct (Z.eq_dec n 15) as [-> | Hne].
    + rewrite Z.testbit_eqb by lia. change (2 ^ 15) with 32768.
      rewrite Z.div_small by lia. reflexivity.
    + rewrite Z.pow2_bits_false by lia. apply andb_false_r.
  - apply Z.eqb_neq. intros H0. rewrite H0, Z.bits_0 in Hbit.
    destruct (Z.leb_spec 32768 x); [discriminate | lia].
Qed.

(** ** seqnoInvalid *)

Lemma seqnoInvalid_unfold (seqno reference : Z) :
  seqnoInvalid seqno reference =
    negb (wrap16 (seqno - reference) <? 32768) &&
    (256 <? wrap16 (reference - seqno)).
Proof.
  unfold seqnoInvalid.
  rewrite top_bit_clear by apply wrap16_range.
  rewrite Z.gtb_ltb.
  destruct (wrap16 (seqno - reference) <? 32768); cbn; [reflexivity |].
  destruct (256 <? wrap16 (reference - seqno)); reflexivity.
Qed.

(** C6: a sequence number is never too old for itself nor when it lies up
    to half the range ahead of [r]; behind [r] it is accepted up to a
    distance of 256 and refused from 257 to 0x7FFF (all arithmetic on
    [uint16]). *)
Theorem seqnoInvalid_window (r d : Z) :
  0 <= r < 65536 ->
  seqnoInvalid r r = false /\
  (0 <= d <= 32767 -> seqnoInvalid (wrap16 (r + d)) r = false) /\
  (0 <= d <= 256 -> seqnoInvalid (wrap16 (r - d)) r = false) /\
  (256 < d <= 32767 -> seqnoInvalid (wrap16 (r - d)) r = true).
Proof.
  intros Hr. repeat split.
  - rewrite seqnoInvalid_unfold. rewrite Z.sub_diag. reflexivity.
  - intros Hd. rewrite seqnoInvalid_unfold, wrap16_sub_l.
    replace (r + d - r) with d by lia.
    rewrite (wrap16_small d) by lia.
    destruct (Z.ltb_spec d 32768); [reflexivity | lia].
  - intros Hd. rewrite seqnoInvalid_unfold, wrap16_sub_l, wrap16_sub_r.
    replace (r - (r - d)) with d by lia.
    rewrite (wrap16_small d) by lia.
    destruct (Z.ltb_spec 256 d); [lia | apply andb_false_r].
  - intros Hd. rewrite seqnoInvalid_unfold, wrap16_sub_l, wrap16_sub_r.
    replace (r - (r - d)) with d by lia.
    replace (r - d - r) with (- d) by lia.
    rewrite (wrap16_small d) by lia. rewrite wrap16_neg by lia.
    destruct (Z.ltb_spec (65536 - d) 32768); [lia |].
    destruct (Z.ltb_spec 256 d); [reflexivity | lia].
Qed.

Lemma seqnoInvalid_window_witness :
  seqnoInvalid 65530 65530 = false /\
  seqnoInvalid (wrap16 (65530 + 300)) 65530 = false /\
  seqnoInvalid (wrap16 (65530 - 100)) 65530 = false /\
  seqnoInvalid (wrap16 (65530 - 300)) 65530 = true.
Proof.
  assert (Hr : 0 <= 65530 < 65536) by lia.
  destruct (seqnoInvalid_window 65530 300 Hr) as (H0 & Hfwd & _ & Hfar).
  destruct (seqnoInvalid_window 65530 100 Hr) as (_ & _ & Hnear & _).
  split; [exact H0 |].
  split; [apply Hfwd; lia |].
  split; [apply Hnear; lia | apply Hfar; lia].
Defined.

(** ** Lists *)

Lemma len_replicate {A} (n : Z) (a : A) :
  0 <= n -> len (replicate (Z.to_nat n) a) = n.
Proof. intros Hn. unfold len. rewrite length_replicate. lia. Qed.

(** [make] within its limits, and outside them. *)
Lemma make_ok {A} (size : Z) (zero : A) (n : Z) :
  0 <= n -> size * n <= maxAlloc ->
  make size zero n = Ret (replicate (Z.to_nat n) zero).
Proof.
  intros Hn Hfit. unfold make.
  destruct (Z.ltb_spec n 0); [lia |].
  destruct (Z.gtb_spec (size * n) maxAlloc); [lia | reflexivity].
Qed.

Lemma make_refuses {A} (size : Z) (zero : A) (n : Z) :
  n < 0 \/ maxAlloc < size * n -> make size zero n = Panic.
Proof.
  intros Hout. unfold make.
  destruct (Z.ltb_spec n 0); [reflexivity |].
  destruct (Z.gtb_spec (size * n) maxAlloc); [reflexivity | lia].
Qed.

(** ** New *)

(** C2, as the code has it: [New] returns [nil] exactly when the capacity
    exceeds 65535, the largest [uint16]; every capacity from 0 to 65535
    gives a cache of that many empty slots.  A capacity of 65536 is
    refused. *)
Theorem New_capacity (capacity : Z) :
  (New capacity = Ret None <-> 65535 < capacity) /\
  (0 <= capacity <= 65535 ->
   New capacity = Ret (Some (fresh capacity)) /\
   len (entries (fresh capacity)) = capacity).
Proof.
  unfold New. split; [split |].
  - destruct (Z.gtb_spec capacity 65535) as [Hgt | Hle]; [lia |].
    destruct (make entrySize zero_entry capacity); discriminate.
  - intros Hgt.
    destruct (Z.gtb_spec capacity 65535) as [_ | Hle]; [reflexivity | lia].
  - intros Hc.
    destruct (Z.gtb_spec capacity 65535) as [Hgt | _]; [lia |].
    rewrite make_ok by (unfold entrySize, BufSize, maxAlloc; lia).
    split; [reflexivity | apply len_replicate; lia].
Qed.

(** C2 as stated fails at the upper end of its range: 65536 slots are
    refused. *)
Lemma New_65536_is_nil :
  1 <= 65536 <= 65536 /\ New 65536 = Ret None.
Proof. split; [lia | reflexivity]. Qed.

(** A negative capacity is a run-time panic of [make], not a [nil]. *)
Lemma New_negative (capacity : Z) : capacity < 0 -> New capacity = Panic.
Proof.
  intros Hneg. unfold New.
  destruct (Z.gtb_spec capacity 65535); [lia |].
  rewrite make_refuses by lia. reflexivity.
Qed.

(** ** Expect *)

(** C10 as the code has it: [Expect n] with [n <= 0] returns with the
    cache untouched; with [n > 0] it adds [n] to [expected] in [uint32]
    arithmetic, that is modulo 2^32, which is the exact sum whenever
    that fits the counter, and touches no other field. *)
Theorem Expect_frame (n : Z) (c : Cache) :
  (n <= 0 -> Expect n c = (Ret tt, c)) /\
  (0 < n ->
   fst (Expect n c) = Ret tt /\
   expected (snd (Expect n c)) = wrap32 (expected c + n) /\
   (0 <= expected c -> expected c + n < 4294967296 ->
    expected (snd (Expect n c)) = expected c + n) /\
   bitmap (snd (Expect n c)) = bitmap c /\
   first (snd (Expect n c)) = first c /\
   entries (snd (Expect n c)) = entries c /\
   tail (snd (Expect n c)) = tail c /\
   last (snd (Expect n c)) = last c /\
   lastValid (snd (Expect n c)) = lastValid c /\
   cycle (snd (Expect n c)) = cycle c /\
   lost (snd (Expect n c)) = lost c /\
   totalLost (snd (Expect n c)) = totalLost c).
Proof.
  unfold Expect. split; intros Hn.
  - destruct (Z.leb_spec n 0); [reflexivity | lia].
  - destruct (Z.leb_spec n 0); [lia |].
    run_M. cbn. rewrite wrap32_add_r.
    repeat split; try reflexivity.
    intros H0 Hfit. apply wrap32_small. lia.
Qed.

(** C10 as stated fails where the [uint32] addition wraps around:
    [Expect(4294967296)] leaves [expected] as it was, and
    [Expect(4294967295)] takes an [expected] of 8 down to 7. *)
Lemma Expect_not_exactly_n :
  (0 < 4294967296 /\
   expected (snd (Expect 4294967296 (fresh 4))) = expected (fresh 4)) /\
  (0 < 4294967295 /\
   expected (snd (Expect 8 (fresh 4))) = 8 /\
   expected (snd (Expect 4294967295 (snd (Expect 8 (fresh 4))))) = 7).
Proof. vm_compute. repeat split. Qed.

(** ** GetStats *)

(** C8: [GetStats] reports the counters it finds, the cumulative loss
    being [totalLost + lost] and the extended sequence number
    [cycle << 16 | last]; with [reset] it folds [lost] into [totalLost]
    and clears [lost] and [expected], so that the next call reports the
    same cumulative loss. *)
Theorem GetStats_spec (reset reset' : bool) (c : Cache) :
  fst (GetStats reset c) =
    Ret (expected c, lost c, wrap32 (totalLost c + lost c),
         Z.lor (wrap32 (Z.shiftl (cycle c) 16)) (last c)) /\
  snd (GetStats false c) = c /\
  totalLost (snd (GetStats true c)) = wrap32 (totalLost c + lost c) /\
  lost (snd (GetStats true c)) = 0 /\
  expected (snd (GetStats true c)) = 0 /\
  snd (GetStats true c) =
    with_lost 0 (with_totalLost (wrap32 (totalLost c + lost c))
                   (with_expected 0 c)) /\
  fst (GetStats reset' (snd (GetStats true c))) =
    Ret (0, 0, wrap32 (totalLost c + lost c),
         Z.lor (wrap32 (Z.shiftl (cycle c) 16)) (last c)).
Proof.
  unfold GetStats.
  repeat split; try (destruct reset; reflexivity).
  destruct reset'; run_M; cbn; rewrite Z.add_0_r;
    unfold wrap32; rewrite Z.mod_mod by lia; reflexivity.
Qed.

(** ** GetAt *)

(** The two misses of [GetAt] that the code does answer with 0: an index
    beyond the capacity, and a slot that holds another sequence number. *)
Lemma GetAt_miss (seqno idx : Z) (result : list byte) (c : Cache) (e : entry) :
  len (entries c) < idx \/
  (0 <= idx /\ entries c !! Z.to_nat idx = Some e /\ entry_seqno e <> seqno) ->
  GetAt seqno idx result c = (Ret (0, result), c).
Proof.
  intros [Hbig | (Hidx & Hget & Hne)]; unfold GetAt; run_M.
  - destruct (Z.gtb_spec idx (len (entries c))); [reflexivity | lia].
  - assert (Hlt : idx < len (entries c)).
    { apply lookup_lt_Some in Hget. unfold len. lia. }
    destruct (Z.gtb_spec idx (len (entries c))); [lia |].
    unfold index.
    destruct (Z.leb_spec 0 idx); [| lia].
    destruct (Z.ltb_spec idx (len (entries c))); [| lia].
    cbn. rewrite Hget.
    destruct (Z.eqb_spec (entry_seqno e) seqno); [contradiction | reflexivity].
Qed.

(** C1 fails on the code at the first index out of range: the guard of
    [GetAt] is [int(index) > len(cache.entries)], so an index equal to
    the capacity passes it and [cache.entries[index]] raises the
    run-time panic, in every cache and for every sequence number. *)
Theorem GetAt_index_eq_capacity
    (seqno : Z) (result : list byte) (c : Cache) :
  GetAt seqno (len (entries c)) result c = (Panic, c).
Proof.
  unfold GetAt. run_M.
  destruct (Z.gtb_spec (len (entries c)) (len (entries c))); [lia |].
  unfold index.
  destruct (Z.ltb_spec (len (entries c)) (len (entries c))); [lia |].
  rewrite andb_false_r. reflexivity.
Qed.

Example GetAt_4_of_4 :
  New 4 = Ret (Some (fresh 4)) /\
  fst (GetAt 0 4 [x00; x00] (fresh 4)) = Panic /\
  fst (GetAt 0 5 [x00; x00] (fresh 4)) = Ret (0, [x00; x00]).
Proof. repeat split. Qed.

(** ** GetLast *)

(** With [tail = 0] the index [tail - 1] wraps to 65535, which no ring
    that [New] builds contains, and [GetLast] falls back to slot 0. *)
Lemma GetLast_tail_0 (result : list byte) (c : Cache) :
  tail c = 0 -> len (entries c) <= 65535 ->
  GetLast result c =
    (e ← lift (index (entries c) 0); lift (copyOut e result)) c.
Proof.
  intros Htail Hlen. unfold GetLast. run_M. rewrite Htail.
  change (wrap16 (0 - 1)) with 65535.
  assert (Hw : wrap16 (len (entries c)) <= 65535).
  { pose proof (wrap16_range (len (entries c))). lia. }
  destruct (Z.geb_spec 65535 (wrap16 (len (entries c)))); [reflexivity | lia].
Qed.


(** C5 fails on the code when [tail = 0]: after four packets in a ring of
    four slots the last one written is in slot 3 (where [GetAt] finds
    packet 4), and [GetLast] returns the packet of slot 0, the oldest. *)
Theorem GetLast_after_wrap :
  tail ring_1234 = 0 /\
  fst (GetAt 4 3 [x00] ring_1234) = Ret (1, [x04]) /\
  fst (GetAt 1 0 [x00] ring_1234) = Ret (1, [x01]) /\
  fst (GetLast [x00] ring_1234) = Ret (1, [x01]).
Proof. vm_compute. repeat split. Qed.

(** ** Store *)

(** The statistics and the bitmap never fail and leave the ring alone. *)
Lemma updateStats_ret (seqno : Z) (c : Cache) :
  fst (updateStats seqno c) = Ret tt /\
  first (snd (updateStats seqno c)) = first c /\
  bitmap (snd (updateStats seqno c)) = bitmap c /\
  tail (snd (updateStats seqno c)) = tail c /\
  entries (snd (updateStats seqno c)) = entries c /\
  totalLost (snd (updateStats seqno c)) = totalLost c.
Proof.
  unfold updateStats. run_M.
  destruct (negb (lastValid c) || seqnoInvalid seqno (last c));
    [repeat split |].
  destruct (negb (Z.land (wrap16 (last c - seqno)) 32768 =? 0)).
  - destruct (seqno <? last c); repeat split.
  - destruct (lost c >? 0); repeat split.
Qed.

Lemma set_ret (seqno : Z) (c : Cache) :
  fst (set seqno c) = Ret tt /\
  last (snd (set seqno c)) = last c /\
  cycle (snd (set seqno c)) = cycle c /\
  lastValid (snd (set seqno c)) = lastValid c /\
  expected (snd (set seqno c)) = expected c /\
  lost (snd (set seqno c)) = lost c /\
  totalLost (snd (set seqno c)) = totalLost c /\
  tail (snd (set seqno c)) = tail c /\
  entries (snd (set seqno c)) = entries c.
Proof.
  unfold set. run_M.
  destruct ((bitmap c =? 0) || seqnoInvalid seqno (first c));
    [repeat split |].
  destruct (negb (Z.land (wrap16 (seqno - first c)) 32768 =? 0));
    [repeat split |].
  destruct (wrap16 (seqno - first c) <? 32); repeat split.
Qed.

Lemma Store_unfold (seqno : Z) (buf : list byte) (c : Cache) :
  Store seqno buf c =
    (i ← writeEntry seqno buf; cache ← get; mret (first cache, i))
      (beforeWrite seqno c).
Proof.
  unfold Store, beforeWrite.
  unfold mbind at 1, M_mbind at 1, M_bind at 1.
  destruct (updateStats_ret seqno c) as (Hu & _).
  destruct (updateStats seqno c) as [o c1]. cbn in Hu. subst o.
  unfold mbind at 1, M_mbind at 1, M_bind at 1.
  destruct (set_ret seqno c1) as (Hs & _).
  cbn [snd]. destruct (set seqno c1) as [o c2]. cbn in Hs. subst o.
  reflexivity.
Qed.

(** With [tail] inside a ring of at most 65535 slots, [Store] returns
    the slot it wrote and moves [tail] to the next one. *)
Lemma Store_ok (seqno : Z) (buf : list byte) (c : Cache) :
  0 <= tail c < len (entries c) -> len (entries c) <= 65535 ->
  exists e,
    entries c !! Z.to_nat (tail c) = Some e /\
    Store seqno buf c =
      (Ret (first (beforeWrite seqno c), tail c),
       with_tail ((tail c + 1) mod len (entries c))
         (with_entries
            (<[Z.to_nat (tail c) :=
                 mkEntry seqno (wrap16 (len buf))
                         (fst (copy (entry_buf e) buf))]> (entries c))
            (beforeWrite seqno c))).
Proof.
  intros Htail Hlen.
  assert (Hsome : is_Some (entries c !! Z.to_nat (tail c))).
  { apply lookup_lt_is_Some. unfold len in Htail. lia. }
  destruct Hsome as [e He]. exists e. split; [exact He |].
  rewrite Store_unfold. unfold beforeWrite.
  destruct (updateStats_ret seqno c) as (_ & _ & _ & Ht1 & He1 & _).
  destruct (set_ret seqno (snd (updateStats seqno c)))
    as (_ & _ & _ & _ & _ & _ & _ & Ht2 & He2).
  set (c2 := snd (set seqno (snd (updateStats seqno c)))) in *.
  assert (Ht : tail c2 = tail c) by congruence.
  assert (Hes : entries c2 = entries c) by congruence.
  unfold writeEntry. run_M. rewrite Ht, Hes.
  unfold index.
  destruct (Z.leb_spec 0 (tail c)); [| lia].
  destruct (Z.ltb_spec (tail c) (len (entries c))); [| lia].
  cbn [andb]. rewrite He.
  rewrite (wrap16_small (len (entries c))) by lia.
  destruct (Z.eqb_spec (len (entries c)) 0); [lia |].
  rewrite (wrap16_small (tail c + 1)) by lia.
  reflexivity.
Qed.

Lemma updateStats_statsOnly (seqno : Z) (c : Cache) :
  statsOnly (snd (updateStats seqno c)) = snd (updateStats seqno (statsOnly c)).
Proof.
  unfold updateStats. run_M. cbn [last lastValid lost statsOnly].
  destruct (negb (lastValid c) || seqnoInvalid seqno (last c));
    [reflexivity |].
  destruct (negb (Z.land (wrap16 (last c - seqno)) 32768 =? 0)).
  - destruct (seqno <? last c); reflexivity.
  - destruct (lost c >? 0); reflexivity.
Qed.

(** The ring write touches no statistic, also when it panics. *)
Lemma writeEntry_statsOnly (seqno : Z) (buf : list byte) (c : Cache) :
  statsOnly (snd (writeEntry seqno buf c)) = statsOnly c.
Proof.
  unfold writeEntry. run_M.
  destruct (index (entries c) (tail c)); try reflexivity.
  destruct (wrap16 (len (entries c)) =? 0); reflexivity.
Qed.

(** Whatever becomes of the call, the statistics that [Store] leaves are
    those of lines 82 to 99. *)
Lemma Store_statsOnly (seqno : Z) (buf : list byte) (c : Cache) :
  statsOnly (snd (Store seqno buf c)) = snd (updateStats seqno (statsOnly c)).
Proof.
  rewrite <- updateStats_statsOnly.
  transitivity (statsOnly (beforeWrite seqno c)).
  - rewrite Store_unfold.
    rewrite <- (writeEntry_statsOnly seqno buf (beforeWrite seqno c)).
    run_M. destruct (writeEntry seqno buf (beforeWrite seqno c)) as [[i | |] c'];
      reflexivity.
  - unfold beforeWrite, statsOnly.
    destruct (set_ret seqno (snd (updateStats seqno c)))
      as (_ & -> & -> & -> & -> & -> & -> & _).
    reflexivity.
Qed.

Lemma Store_ring_ok (seqno : Z) (buf : list byte) (c : Cache) :
  ring_ok c ->
  (exists r, fst (Store seqno buf c) = Ret r) /\
  ring_ok (snd (Store seqno buf c)) /\
  len (entries (snd (Store seqno buf c))) = len (entries c).
Proof.
  intros [Htail Hlen].
  destruct (Store_ok seqno buf c Htail Hlen) as (e & _ & ->).
  cbn [fst snd]. unfold ring_ok. cbn [tail entries with_tail with_entries].
  destruct (set_ret seqno (snd (updateStats seqno c)))
    as (_ & _ & _ & _ & _ & _ & _ & _ & He2).
  destruct (updateStats_ret seqno c) as (_ & _ & _ & _ & He1 & _).
  assert (Hl : len (<[Z.to_nat (tail c) :=
                       mkEntry seqno (wrap16 (len buf))
                               (fst (copy (entry_buf e) buf))]> (entries c))
               = len (entries c)).
  { unfold len. rewrite length_insert. reflexivity. }
  rewrite Hl.
  pose proof (Z.mod_pos_bound (tail c + 1) (len (entries c))).
  repeat split; eauto; lia.
Qed.


Lemma fresh_ring_ok (capacity : Z) :
  1 <= capacity <= 65535 -> ring_ok (fresh capacity).
Proof.
  intros Hc. unfold ring_ok, fresh. cbn [tail entries].
  rewrite len_replicate by lia. lia.
Qed.




(** ** BitmapGet *)

Lemma ctz_pos_nonneg (p : positive) : 0 <= ctz_pos p.
Proof. induction p; cbn [ctz_pos]; lia. Qed.

Lemma ctz_pos_pow2 (p : positive) : 2 ^ ctz_pos p <= Zpos p.
Proof.
  induction p as [p IH | p IH |]; cbn [ctz_pos]; try (cbn; lia).
  pose proof (ctz_pos_nonneg p).
  rewrite Z.pow_add_r by lia. change (2 ^ 1) with 2. lia.
Qed.

(** [ctz] does count the trailing zeros: the bits below it are clear and
    the bit at it is set. *)
Lemma ctz_bits (x : Z) :
  0 < x ->
  Z.testbit x (ctz x) = true /\
  (forall i, 0 <= i < ctz x -> Z.testbit x i = false).
Proof.
  destruct x as [| p | p]; try lia. intros _. cbn [ctz].
  induction p as [p IH | p IH |]; cbn [ctz_pos].
  - split; [reflexivity | intros i Hi; lia].
  - destruct IH as [IHset IHclear]. pose proof (ctz_pos_nonneg p) as Hn.
    split.
    + replace (1 + ctz_pos p) with (Z.succ (ctz_pos p)) by lia.
      change (Z.pos p~0) with (2 * Z.pos p).
      rewrite Z.testbit_even_succ by lia. exact IHset.
    + intros i Hi. destruct (Z.eq_dec i 0) as [-> | Hne]; [reflexivity |].
      replace i with (Z.succ (i - 1)) by lia.
      change (Z.pos p~0) with (2 * Z.pos p).
      rewrite Z.testbit_even_succ by lia. apply IHclear. lia.
  - split; [reflexivity | intros i Hi; lia].
Qed.

(** The loop of [BitmapGet] on a non-zero bitmap leaves after [ctz]
    rounds, when it is given more rounds than that. *)
Lemma BitmapGet_loop_ctz (fuel : nat) (p : positive) (first0 : Z) :
  ctz_pos p < Z.of_nat fuel ->
  BitmapGet_loop fuel (Zpos p) first0 =
    Some (Z.shiftr (Zpos p) (ctz_pos p),
          if ctz_pos p =? 0 then first0 else wrap16 (first0 + ctz_pos p)).
Proof.
  revert p first0. induction fuel as [| fuel IH]; intros p first0 Hfuel.
  - pose proof (ctz_pos_nonneg p). lia.
  - destruct p as [p | p |].
    + reflexivity.
    + cbn [BitmapGet_loop ctz_pos].
      change (Z.land (Z.pos p~0) 1 =? 0) with true. cbn iota.
      change (Z.shiftr (Z.pos p~0) 1) with (Z.pos p).
      pose proof (ctz_pos_nonneg p) as Hn.
      rewrite IH by (cbn [ctz_pos] in Hfuel; lia).
      f_equal. f_equal.
      * rewrite <- Z.shiftr_shiftr by lia. reflexivity.
      * destruct (Z.eqb_spec (1 + ctz_pos p) 0); [lia |].
        destruct (Z.eqb_spec (ctz_pos p) 0) as [-> | _].
        -- reflexivity.
        -- rewrite wrap16_add_l. f_equal. lia.
    + reflexivity.
Qed.

Lemma missing_range (c : Cache) : 0 <= missing c < 131072.
Proof.
  unfold missing. change 131071 with (Z.ones 17).
  rewrite Z.land_ones by lia. apply Z.mod_pos_bound. lia.
Qed.

(** C7: [BitmapGet] always returns; it leaves the bitmap shifted right
    by 17 and [first] advanced by 17 whatever it reports; with no bit
    missing it reports [(false, first, 0)], the [first] from before the
    call, and otherwise [(true, first + ctz, missing >> (ctz + 1))], where
    [ctz] is the number of trailing zero bits of [missing]. *)
Theorem BitmapGet_spec (c : Cache) :
  0 <= first c < 65536 ->
  BitmapGet c =
    (Ret (if missing c =? 0 then (false, first c, 0)
          else (true, wrap16 (first c + ctz (missing c)),
                Z.shiftr (missing c) (ctz (missing c) + 1))),
     with_first (wrap16 (first c + 17))
       (with_bitmap (Z.shiftr (bitmap c) 17) c)).
Proof.
  intros Hfirst. unfold BitmapGet. run_M. fold (missing c).
  pose proof (missing_range c) as Hm.
  destruct (Z.eqb_spec (missing c) 0) as [Hz | Hnz]; [reflexivity |].
  destruct (missing c) as [| p | p] eqn:Hp; try lia. cbn [ctz].
  pose proof (ctz_pos_pow2 p) as Hpow.
  pose proof (ctz_pos_nonneg p) as Hn.
  assert (Hctz : ctz_pos p < 17).
  { destruct (Z.lt_ge_cases (ctz_pos p) 17) as [Hlt | Hge]; [exact Hlt |].
    pose proof (Z.pow_le_mono_r 2 17 (ctz_pos p)) as Hle.
    change (2 ^ 17) with 131072 in Hle. lia. }
  rewrite BitmapGet_loop_ctz by (change (Z.of_nat 32) with 32; lia).
  rewrite Z.shiftr_shiftr by lia.
  assert (Hmask : 0 <= Z.shiftr (Z.pos p) (ctz_pos p + 1) < 65536).
  { rewrite Z.shiftr_div_pow2 by lia. split.
    - apply Z.div_pos; [lia | apply Z.pow_pos_nonneg; lia].
    - apply Z.div_lt_upper_bound; [apply Z.pow_pos_nonneg; lia |].
      assert (2 <= 2 ^ (ctz_pos p + 1)).
      { change 2 with (2 ^ 1) at 1. apply Z.pow_le_mono_r; lia. }
      nia. }
  rewrite (wrap16_small _ Hmask).
  destruct (Z.eqb_spec (ctz_pos p) 0) as [-> | _].
  - rewrite Z.add_0_r, (wrap16_small (first c)) by lia. reflexivity.
  - reflexivity.
Qed.

Lemma BitmapGet_spec_witness :
  fst (BitmapGet (with_bitmap 33 (with_first 10 (fresh 4)))) =
    Ret (true, 11, 32759) /\
  first (snd (BitmapGet (with_bitmap 33 (with_first 10 (fresh 4))))) = 27.
Proof.
  assert (H : 0 <= first (with_bitmap 33 (with_first 10 (fresh 4))) < 65536)
    by (cbn; lia).
  rewrite (BitmapGet_spec _ H). split; reflexivity.
Defined.

(** ** The loss counters *)

(** In the branch of [Store] for a packet ahead of [last], the step is
    of at least one sequence number, so [gap - 1] does not wrap. *)
Lemma ahead_gap (seqno last0 : Z) :
  negb (Z.land (wrap16 (last0 - seqno)) 32768 =? 0) = true ->
  1 <= wrap16 (seqno - last0) <= 32768 /\
  wrap16 (wrap16 (seqno - last0) - 1) = wrap16 (seqno - last0) - 1.
Proof.
  intros Hahead.
  rewrite top_bit_clear in Hahead by apply wrap16_range.
  destruct (Z.ltb_spec (wrap16 (last0 - seqno)) 32768) as [| Hge];
    [discriminate |].
  pose proof (wrap16_range (last0 - seqno)) as Hr.
  assert (Hgap : wrap16 (seqno - last0) = 65536 - wrap16 (last0 - seqno)).
  { replace (seqno - last0) with (- (last0 - seqno)) by lia.
    rewrite <- (wrap16_neg (wrap16 (last0 - seqno))) by lia.
    unfold wrap16. rewrite <- (Z.sub_0_l (_ mod _)).
    rewrite Zminus_mod_idemp_r. reflexivity. }
  rewrite Hgap. split; [lia | apply wrap16_small; lia].
Qed.

Lemma updateStats_counters (seqno : Z) (c : Cache) :
  counters_ok c ->
  counters_step (lost c) (totalLost c)
    (lost (snd (updateStats seqno c))) (totalLost (snd (updateStats seqno c))).
Proof.
  intros [Hl Ht]. unfold updateStats. run_M.
  destruct (negb (lastValid c) || seqnoInvalid seqno (last c));
    [apply cs_keep |].
  destruct (negb (Z.land (wrap16 (last c - seqno)) 32768 =? 0)) eqn:Hahead.
  - destruct (ahead_gap seqno (last c) Hahead) as [Hgap ->].
    destruct (seqno <? last c); cbn; apply cs_gap; exact Hgap.
  - destruct (Z.gtb_spec (lost c) 0) as [Hpos | _]; [| apply cs_keep].
    cbn. rewrite wrap32_small by lia. apply cs_retract. lia.
Qed.

Lemma lookups_counters (c : Cache) (seqno idx : Z) (result : list byte) :
  statsOnly (snd (Get seqno result c)) = statsOnly c /\
  statsOnly (snd (GetLast result c)) = statsOnly c /\
  statsOnly (snd (GetAt seqno idx result c)) = statsOnly c.
Proof.
  unfold Get, GetLast, GetAt. run_M.
  repeat split; split_cases; reflexivity.
Qed.

Lemma resize_counters (capacity : Z) (c : Cache) :
  statsOnly (snd (resize capacity c)) = statsOnly c.
Proof. unfold resize. run_M. split_cases; reflexivity. Qed.

Lemma ResizeCond_counters (capacity : Z) (c : Cache) :
  statsOnly (snd (ResizeCond capacity c)) = statsOnly c.
Proof.
  unfold ResizeCond. run_M.
  destruct (_ && _); [reflexivity |].
  destruct (_ && _); [reflexivity |].
  rewrite <- (resize_counters capacity c).
  destruct (resize capacity c) as [[[] | |] c']; reflexivity.
Qed.

Lemma exec_counters (o : op) (c : Cache) :
  counters_ok c ->
  counters_step (lost c) (totalLost c)
    (lost (exec o c)) (totalLost (exec o c)).
Proof.
  intros Hok.
  assert (Hsame : forall c', statsOnly c' = statsOnly c ->
            counters_step (lost c) (totalLost c) (lost c') (totalLost c')).
  { intros c' Heq.
    change (lost c) with (lost (statsOnly c)).
    change (totalLost c) with (totalLost (statsOnly c)).
    rewrite <- Heq. apply cs_keep. }
  destruct o as [seqno buf | n | seqno result | result | seqno idx result
                | capacity | capacity | | reset]; cbn [exec].
  - change (lost (snd (Store seqno buf c)))
      with (lost (statsOnly (snd (Store seqno buf c)))).
    change (totalLost (snd (Store seqno buf c)))
      with (totalLost (statsOnly (snd (Store seqno buf c)))).
    rewrite Store_statsOnly, <- updateStats_statsOnly.
    apply (updateStats_counters seqno c Hok).
  - unfold Expect. run_M. destruct (n <=? 0); apply cs_keep.
  - apply Hsame. apply (lookups_counters c seqno 0 result).
  - apply Hsame. apply (lookups_counters c 0 0 result).
  - apply Hsame. apply (lookups_counters c seqno idx result).
  - apply Hsame. apply resize_counters.
  - apply Hsame. apply ResizeCond_counters.
  - unfold BitmapGet. run_M. split_cases; apply cs_keep.
  - unfold GetStats. run_M. destruct reset; [apply cs_reset | apply cs_keep].
Qed.

Lemma counters_step_ok (l t l' t' : Z) :
  0 <= l < 4294967296 -> 0 <= t < 4294967296 ->
  counters_step l t l' t' ->
  0 <= l' < 4294967296 /\ 0 <= t' < 4294967296.
Proof.
  intros Hl Ht Hstep.
  destruct Hstep as [| Hpos | gap Hgap |];
    repeat split; try lia; apply wrap32_range.
Qed.

Lemma run_snoc (os : list op) (o : op) (c : Cache) :
  run (os ++ [o]) c = exec o (run os c).
Proof. unfold run. rewrite foldl_app. reflexivity. Qed.

Lemma run_counters_ok (capacity : Z) (os : list op) :
  counters_ok (run os (fresh capacity)).
Proof.
  induction os as [| o os IH] using rev_ind.
  - unfold counters_ok. cbn. lia.
  - rewrite run_snoc. destruct IH as [Hl Ht].
    apply (counters_step_ok _ _ _ _ Hl Ht).
    apply exec_counters. split; assumption.
Qed.

(** C9: after any sequence of calls on a fresh cache, [lost] and
    [totalLost] are values of their type and the next call, whichever it
    is, moves them by a [counters_step]: the only subtraction takes one
    from a [lost] that is positive, the gap of a packet ahead is at least
    one so that [gap - 1] is not negative, and [totalLost] only ever
    receives [lost]. *)
Theorem counters_never_underflow (capacity : Z) (os : list op) (o : op) :
  counters_ok (run os (fresh capacity)) /\
  counters_step
    (lost (run os (fresh capacity))) (totalLost (run os (fresh capacity)))
    (lost (run (os ++ [o]) (fresh capacity)))
    (totalLost (run (os ++ [o]) (fresh capacity))).
Proof.
  split; [apply run_counters_ok |].
  rewrite run_snoc. apply exec_counters. apply run_counters_ok.
Qed.

(** ** Growing the ring *)

(** The slot that [Store] fills, and where it leaves [tail]. *)
Lemma Store_ring (seqno : Z) (buf : list byte) (c : Cache) (e : entry) :
  ring_ok c -> entries c !! Z.to_nat (tail c) = Some e ->
  entries (exec (OpStore seqno buf) c) =
    <[Z.to_nat (tail c) :=
        mkEntry seqno (wrap16 (len buf)) (fst (copy (entry_buf e) buf))]>
      (entries c) /\
  tail (exec (OpStore seqno buf) c) = (tail c + 1) mod len (entries c).
Proof.
  intros [Htail Hlen] He. cbn [exec].
  destruct (Store_ok seqno buf c Htail Hlen) as (e' & He' & ->).
  assert (e' = e) as -> by congruence.
  cbn [snd entries tail with_tail with_entries].
  split; reflexivity.
Qed.

Lemma length_zero_buf : length zero_buf = 1500%nat.
Proof. unfold zero_buf. rewrite length_replicate. reflexivity. Qed.

(** What a lookup copies out of a slot that [Store] filled, when the
    payload fits the slot and the caller's buffer. *)
Lemma copyOut_stored (seqno : Z) (p out : list byte) :
  (length p <= 1500)%nat -> (length p <= length out)%nat ->
  copyOut (mkEntry seqno (wrap16 (len p)) (fst (copy zero_buf p))) out =
    Ret (len p, p ++ drop (length p) out).
Proof.
  intros Hp Hout. unfold copyOut, slice, copy, len.
  cbn [entry_length entry_buf fst].
  rewrite length_zero_buf.
  rewrite (wrap16_small (Z.of_nat (length p))) by lia.
  destruct (Z.leb_spec 0 0); [| lia].
  destruct (Z.leb_spec 0 (Z.of_nat (length p))); [| lia].
  destruct (Z.leb_spec (Z.of_nat (length p)) (Z.of_nat (length out))); [| lia].
  cbn [andb]. rewrite Z.sub_0_r, Nat2Z.id.
  change (Z.to_nat 0) with 0%nat. rewrite drop_0.
  replace (Nat.min 1500 (length p)) with (length p) by lia.
  rewrite (take_ge p (length p)) by lia.
  rewrite length_take, length_app, length_drop, length_zero_buf.
  replace (Nat.min (Nat.min (length p) (length out))
                   (length p + (1500 - length p)))
    with (length p) by lia.
  rewrite take_app_length.
  rewrite drop_ge by (rewrite length_take; lia).
  rewrite app_nil_r, wrap16_small by lia. reflexivity.
Qed.

Lemma len_4 {A} (a b c d : A) : len [a; b; c; d] = 4.
Proof. reflexivity. Qed.

Lemma grown_entries (p1 p2 p3 p4 : list byte) :
  tail (run [OpStore 1 p1; OpStore 2 p2; OpStore 3 p3; OpStore 4 p4]
            (fresh 4)) = 0 /\
  entries (run [OpStore 1 p1; OpStore 2 p2; OpStore 3 p3; OpStore 4 p4]
               (fresh 4)) =
    [stored 1 p1; stored 2 p2; stored 3 p3; stored 4 p4] /\
  tail (grown p1 p2 p3 p4) = 0 /\
  entries (grown p1 p2 p3 p4) =
    [zero_entry; zero_entry; zero_entry; zero_entry;
     stored 1 p1; stored 2 p2; stored 3 p3; stored 4 p4].
Proof.
  unfold grown, run. cbn [foldl].
  assert (R0 : ring_ok (fresh 4)) by (apply fresh_ring_ok; lia).
  destruct (Store_ring 1 p1 (fresh 4) zero_entry R0) as [E1 T1];
    [reflexivity |].
  remember (exec (OpStore 1 p1) (fresh 4)) as c1 eqn:Hc1.
  change (entries c1 = [stored 1 p1; zero_entry; zero_entry; zero_entry])
    in E1.
  change (tail c1 = 1) in T1.
  assert (R1 : ring_ok c1) by (unfold ring_ok; rewrite T1, E1, len_4; lia).
  destruct (Store_ring 2 p2 c1 zero_entry R1) as [E2 T2];
    [rewrite T1, E1; reflexivity |].
  remember (exec (OpStore 2 p2) c1) as c2 eqn:Hc2.
  rewrite T1, E1 in E2, T2.
  change (entries c2 = [stored 1 p1; stored 2 p2; zero_entry; zero_entry])
    in E2.
  change (tail c2 = 2) in T2.
  assert (R2 : ring_ok c2) by (unfold ring_ok; rewrite T2, E2, len_4; lia).
  destruct (Store_ring 3 p3 c2 zero_entry R2) as [E3 T3];
    [rewrite T2, E2; reflexivity |].
  remember (exec (OpStore 3 p3) c2) as c3 eqn:Hc3.
  rewrite T2, E2 in E3, T3.
  change (entries c3 = [stored 1 p1; stored 2 p2; stored 3 p3; zero_entry])
    in E3.
  change (tail c3 = 3) in T3.
  assert (R3 : ring_ok c3) by (unfold ring_ok; rewrite T3, E3, len_4; lia).
  destruct (Store_ring 4 p4 c3 zero_entry R3) as [E4 T4];
    [rewrite T3, E3; reflexivity |].
  remember (exec (OpStore 4 p4) c3) as c4 eqn:Hc4.
  rewrite T3, E3 in E4, T4.
  change (entries c4 = [stored 1 p1; stored 2 p2; stored 3 p3; stored 4 p4])
    in E4.
  change (tail c4 = 0) in T4.
  split; [exact T4 |]. split; [exact E4 |].
  cbn [exec]. unfold Resize, resize. run_M. rewrite E4, T4.
  split; [exact T4 | reflexivity].
Qed.

(** C4 as the code has it: the four packets fill the ring and bring
    [tail] back to 0, so [Resize(8)] finds no prefix below [tail] to keep
    in place and moves all four entries up by four slots.  The index 0
    that [Store] returned for packet 1, valid until then, now names an
    empty slot and [GetAt(1, 0, out)] is a miss that leaves [out] alone;
    the payload of packet 1 is at index 4. *)
Theorem Resize_8_after_full_turn (p1 p2 p3 p4 out : list byte) :
  (length p1 <= 1500)%nat -> (length p1 <= length out)%nat ->
  fst (GetAt 1 0 out
         (run [OpStore 1 p1; OpStore 2 p2; OpStore 3 p3; OpStore 4 p4]
              (fresh 4))) = Ret (len p1, p1 ++ drop (length p1) out) /\
  fst (GetAt 1 0 out (grown p1 p2 p3 p4)) = Ret (0, out) /\
  fst (GetAt 1 4 out (grown p1 p2 p3 p4)) =
    Ret (len p1, p1 ++ drop (length p1) out).
Proof.
  intros Hp Hout.
  destruct (grown_entries p1 p2 p3 p4) as (_ & E4 & _ & E8).
  pose proof (copyOut_stored 1 p1 out Hp Hout) as Hcopy.
  fold (stored 1 p1) in Hcopy.
  unfold GetAt. run_M. rewrite E4, E8.
  split; [| split].
  - change (fst (lift (copyOut (stored 1 p1) out)
                   (run [OpStore 1 p1; OpStore 2 p2; OpStore 3 p3;
                         OpStore 4 p4] (fresh 4))) = 
            Ret (len p1, p1 ++ drop (length p1) out)).
    unfold lift. cbn [fst]. exact Hcopy.
  - reflexivity.
  - change (fst (lift (copyOut (stored 1 p1) out) (grown p1 p2 p3 p4)) =
            Ret (len p1, p1 ++ drop (length p1) out)).
    unfold lift. cbn [fst]. exact Hcopy.
Qed.

Lemma Resize_8_after_full_turn_witness :
  fst (GetAt 1 0 [x00; x00]
         (run [OpStore 1 [x01]; OpStore 2 [x02]; OpStore 3 [x03];
               OpStore 4 [x04]] (fresh 4))) = Ret (1, [x01; x00]) /\
  fst (GetAt 1 0 [x00; x00] (grown [x01] [x02] [x03] [x04])) =
    Ret (0, [x00; x00]) /\
  fst (GetAt 1 4 [x00; x00] (grown [x01] [x02] [x03] [x04])) =
    Ret (1, [x01; x00]).
Proof.
  apply (Resize_8_after_full_turn [x01] [x02] [x03] [x04] [x00; x00]);
    cbn; lia.
Defined.

(** C4 as stated fails: after [Resize(8)] the call [GetAt(1, 0, out)]
    returns 0 and not the one byte stored for packet 1. *)
Lemma GetAt_1_0_after_Resize_8_misses :
  fst (GetAt 1 0 [x00] (grown [x01] [x02] [x03] [x04])) = Ret (0, [x00]) /\
  fst (GetAt 1 0 [x00] (grown [x01] [x02] [x03] [x04])) <> Ret (1, [x01]).
Proof. vm_compute. split; [reflexivity | discriminate]. Qed.

(** ** Slices and copies *)

Lemma slice_ok {A} (s : list A) (lo hi : Z) :
  0 <= lo <= hi -> hi <= len s ->
  slice s lo hi = Ret (take (Z.to_nat (hi - lo)) (drop (Z.to_nat lo) s)).
Proof.
  intros Hlo Hhi. unfold slice.
  destruct (Z.leb_spec 0 lo); [| lia].
  destruct (Z.leb_spec lo hi); [| lia].
  destruct (Z.leb_spec hi (len s)); [| lia].
  reflexivity.
Qed.

Lemma copy_prefix {A} (dst src : list A) :
  (length src <= length dst)%nat ->
  fst (copy dst src) = src ++ drop (length src) dst.
Proof.
  intros Hle. unfold copy. cbn [fst].
  replace (Nat.min (length dst) (length src)) with (length src) by lia.
  rewrite take_ge by lia. reflexivity.
Qed.

Lemma copy_at_inside {A} (off : nat) (dst src : list A) :
  (off + length src <= length dst)%nat ->
  copy_at (Z.of_nat off) dst src =
    take off dst ++ src ++ drop (off + length src) dst.
Proof.
  intros Hle. unfold copy_at. rewrite Nat2Z.id.
  rewrite copy_prefix by (rewrite length_drop; lia).
  rewrite drop_drop. reflexivity.
Qed.

Lemma wrapInt_small (x : Z) :
  - 9223372036854775808 <= x < 9223372036854775808 -> wrapInt x = x.
Proof. intros Hx. unfold wrapInt. rewrite Z.mod_small by lia. lia. Qed.

(** ** resize *)

Lemma allocatable_small (capacity : Z) :
  0 <= capacity <= 65536 -> allocatable capacity.
Proof.
  intros Hc. unfold allocatable, entrySize, BufSize, maxAlloc. lia.
Qed.

(** With [tail] within the ring, [resize] to a capacity that [make]
    accepts returns, and what it leaves is [resized]. *)
Lemma resize_eval (capacity : Z) (c : Cache) :
  0 <= tail c <= len (entries c) ->
  allocatable capacity ->
  len (entries c) < 4611686018427387904 ->
  resize capacity c = (Ret tt, resized capacity c).
Proof.
  intros Htail [Hcap0 Hfit] Hlen.
  assert (Hcap : 0 <= capacity < 4611686018427387904)
    by (unfold entrySize, BufSize, maxAlloc in Hfit; lia).
  unfold resize, resized. run_M.
  destruct (Z.eqb_spec (len (entries c)) capacity) as [| Hne]; [reflexivity |].
  rewrite make_ok by assumption.
  set (old := entries c) in *.
  set (t := Z.to_nat (tail c)).
  set (m := Z.to_nat capacity).
  assert (Ht : tail c = Z.of_nat t) by (subst t; lia).
  assert (Hm : capacity = Z.of_nat m) by (subst m; lia).
  assert (Hn : len old = Z.of_nat (length old)) by reflexivity.
  assert (Htn : (t <= length old)%nat) by (unfold len in Htail; lia).
  destruct (Z.gtb_spec capacity (len old)) as [Hgrow | Hshrink].
  - rewrite (slice_ok old 0 (tail c)) by lia.
    rewrite (slice_ok old (tail c) (len old)) by lia.
    rewrite Z.sub_0_r. change (Z.to_nat 0) with 0%nat. rewrite drop_0.
    fold t.
    rewrite copy_prefix
      by (rewrite length_take, length_replicate; lia).
    rewrite length_take_le by lia. rewrite drop_replicate.
    rewrite (take_ge (drop t old))
      by (rewrite length_drop; unfold len; lia).
    rewrite (wrapInt_small (tail c + capacity)) by lia.
    rewrite wrapInt_small by lia.
    unfold copy_from.
    assert (Hlen1 : len (take t old ++ replicate (m - t) zero_entry) = capacity).
    { unfold len. rewrite length_app, length_take_le, length_replicate by lia.
      lia. }
    rewrite Hlen1.
    destruct (Z.leb_spec 0 (tail c + capacity - len old)); [| lia].
    destruct (Z.leb_spec (tail c + capacity - len old) capacity); [| lia].
    cbn [andb].
    replace (tail c + capacity - len old)
      with (Z.of_nat (t + (m - length old))) by lia.
    rewrite copy_at_inside
      by (rewrite length_app, length_take_le, length_replicate, length_drop;
          lia).
    rewrite take_app, length_take_le, take_replicate by lia.
    rewrite (take_ge (take t old)) by (rewrite length_take; lia).
    rewrite (drop_ge (take t old ++ replicate (m - t) zero_entry))
      by (rewrite length_app, length_take_le, length_replicate, length_drop;
          lia).
    rewrite app_nil_r.
    replace (Nat.min (t + (m - length old) - t) (m - t))
      with (Z.to_nat (capacity - len old)) by lia.
    rewrite <- app_assoc. reflexivity.
  - destruct (Z.gtb_spec capacity (tail c)) as [Hkeep | Hdrop].
    + rewrite (slice_ok old 0 (tail c)) by lia.
      rewrite (wrapInt_small (tail c + len old)) by lia.
      rewrite wrapInt_small by lia.
      rewrite (slice_ok old (tail c + len old - capacity) (len old)) by lia.
      rewrite Z.sub_0_r. change (Z.to_nat 0) with 0%nat. rewrite drop_0.
      fold t.
      rewrite copy_prefix
        by (rewrite length_take, length_replicate; lia).
      rewrite length_take_le by lia. rewrite drop_replicate.
      unfold copy_from.
      assert (Hlen1 :
        len (take t old ++ replicate (m - t) zero_entry) = capacity).
      { unfold len.
        rewrite length_app, length_take_le, length_replicate by lia. lia. }
      rewrite Hlen1.
      destruct (Z.leb_spec 0 (tail c)); [| lia].
      destruct (Z.leb_spec (tail c) capacity); [| lia].
      cbn [andb]. rewrite Ht at 1.
      rewrite (take_ge (drop _ old))
        by (rewrite length_drop; unfold len; lia).
      rewrite copy_at_inside
        by (rewrite length_app, length_take_le, length_replicate, length_drop;
            lia).
      rewrite take_app_le by (rewrite length_take; lia).
      rewrite (take_ge (take t old)) by (rewrite length_take; lia).
      rewrite (drop_ge (take t old ++ replicate (m - t) zero_entry))
        by (rewrite length_app, length_take_le, length_replicate, length_drop;
            lia).
      rewrite app_nil_r. reflexivity.
    + rewrite wrapInt_small by lia.
      rewrite (slice_ok old (tail c - capacity) (tail c)) by lia.
      replace (tail c - (tail c - capacity)) with capacity by lia.
      rewrite copy_prefix
        by (rewrite length_take, length_drop, length_replicate; lia).
      rewrite (drop_ge (replicate _ _))
        by (rewrite length_take, length_drop, length_replicate; lia).
      rewrite app_nil_r. reflexivity.
Qed.

(** Whatever the capacity, [resize] returns with [resized] or leaves the
    cache as it was: when the ring has that capacity already, and when
    [make] refuses it. *)
Lemma resize_outcome (capacity : Z) (c : Cache) :
  0 <= tail c <= len (entries c) ->
  len (entries c) < 4611686018427387904 ->
  resize capacity c = (Ret tt, resized capacity c) \/
  snd (resize capacity c) = c.
Proof.
  intros Htail Hlen.
  destruct (Z.eq_dec (len (entries c)) capacity) as [Heq | Hne].
  - right. unfold resize. run_M.
    destruct (Z.eqb_spec (len (entries c)) capacity); [reflexivity | lia].
  - destruct (Z_lt_le_dec capacity 0) as [Hneg | Hpos];
      [| destruct (Z_lt_le_dec maxAlloc (entrySize * capacity))
           as [Hbig | Hfit]].
    + right. unfold resize. run_M.
      destruct (Z.eqb_spec (len (entries c)) capacity); [lia |].
      rewrite make_refuses by lia. reflexivity.
    + right. unfold resize. run_M.
      destruct (Z.eqb_spec (len (entries c)) capacity); [lia |].
      rewrite make_refuses by lia. reflexivity.
    + left. apply resize_eval; [exact Htail | split; assumption | exact Hlen].
Qed.

Lemma resized_len (capacity : Z) (c : Cache) :
  0 <= tail c <= len (entries c) -> 0 <= capacity ->
  len (entries (resized capacity c)) = capacity.
Proof.
  intros Htail Hcap. unfold resized, len in *.
  destruct (Z.eqb_spec (Z.of_nat (length (entries c))) capacity);
    [assumption |].
  destruct (Z.gtb_spec capacity (Z.of_nat (length (entries c)))).
  - cbn [entries with_entries].
    rewrite !length_app, length_take, length_replicate, length_drop. lia.
  - destruct (Z.gtb_spec capacity (tail c)); cbn [entries with_entries].
    + rewrite length_app, length_take, length_drop. lia.
    + rewrite length_take, length_drop. lia.
Qed.

Lemma resized_tail (capacity : Z) (c : Cache) :
  0 <= tail c <= len (entries c) ->
  tail (resized capacity c) =
    if (len (entries c) =? capacity) || (capacity >? tail c)
    then tail c else 0.
Proof.
  intros Htail. unfold resized.
  destruct (Z.eqb_spec (len (entries c)) capacity); [reflexivity |].
  destruct (Z.gtb_spec capacity (len (entries c))) as [Hgrow | Hshrink];
    destruct (Z.gtb_spec capacity (tail c)); try reflexivity.
  lia.
Qed.

Lemma resized_bufs (capacity : Z) (c : Cache) :
  bufs_ok c -> bufs_ok (resized capacity c).
Proof.
  unfold bufs_ok, resized. intros Hb.
  assert (Hz : length (entry_buf zero_entry) = 1500%nat)
    by apply length_zero_buf.
  destruct (len (entries c) =? capacity); [exact Hb |].
  destruct (capacity >? len (entries c)); [| destruct (capacity >? tail c)];
    cbn [entries with_entries].
  - apply Forall_app_2; [apply Forall_take, Hb |].
    apply Forall_app_2; [apply Forall_replicate, Hz | apply Forall_drop, Hb].
  - apply Forall_app_2; [apply Forall_take, Hb | apply Forall_drop, Hb].
  - apply Forall_take, Forall_drop, Hb.
Qed.

(** ** What the calls leave alone *)

(** The three lookups hand back the cache they were given, whatever
    their outcome. *)
Lemma lookups_frame (c : Cache) (seqno idx : Z) (result : list byte) :
  snd (Get seqno result c) = c /\
  snd (GetLast result c) = c /\
  snd (GetAt seqno idx result c) = c.
Proof.
  unfold Get, GetLast, GetAt. run_M.
  repeat split; split_cases; reflexivity.
Qed.

(** [Expect], [BitmapGet] and [GetStats] do not touch the ring. *)
Lemma counters_ring_frame (c : Cache) (n : Z) (reset : bool) :
  (tail (snd (Expect n c)) = tail c /\
   entries (snd (Expect n c)) = entries c) /\
  (tail (snd (BitmapGet c)) = tail c /\
   entries (snd (BitmapGet c)) = entries c) /\
  (tail (snd (GetStats reset c)) = tail c /\
   entries (snd (GetStats reset c)) = entries c).
Proof.
  unfold Expect, BitmapGet, GetStats. run_M.
  repeat split; split_tests; split_cases; reflexivity.
Qed.

Lemma copy_length {A} (dst src : list A) :
  length (fst (copy dst src)) = length dst.
Proof.
  unfold copy. cbn [fst].
  rewrite length_app, length_take, length_drop. lia.
Qed.

(** ** The ring invariant *)

Lemma Store_inv (seqno : Z) (buf : list byte) (c : Cache) :
  inv c -> inv (snd (Store seqno buf c)).
Proof.
  intros [Hring Hbufs]. split.
  - apply (Store_ring_ok seqno buf c Hring).
  - destruct Hring as [Htail Hlen].
    destruct (Store_ok seqno buf c Htail Hlen) as (e & He & ->).
    unfold bufs_ok. cbn [snd entries with_tail with_entries].
    apply Forall_insert; [exact Hbufs |].
    cbn [entry_buf]. rewrite copy_length.
    apply (Forall_lookup_1 _ _ _ _ Hbufs He).
Qed.

Lemma resize_inv (capacity : Z) (c : Cache) :
  1 <= capacity <= 65535 -> inv c ->
  resize capacity c = (Ret tt, resized capacity c) /\ inv (resized capacity c).
Proof.
  intros Hcap [[Htail Hlen] Hbufs].
  split; [apply resize_eval; [lia | apply allocatable_small; lia | lia] |].
  split; [| apply resized_bufs, Hbufs].
  unfold ring_ok. rewrite resized_len, resized_tail by lia.
  destruct (Z.eqb_spec (len (entries c)) capacity); [cbn [orb]; lia |].
  destruct (Z.gtb_spec capacity (tail c)); cbn [orb]; lia.
Qed.

Lemma exec_inv (o : op) (c : Cache) : op_ok o -> inv c -> inv (exec o c).
Proof.
  intros Hok Hinv.
  destruct o as [seqno buf | n | seqno result | result | seqno idx result
                | capacity | capacity | | reset]; cbn [exec op_ok] in *.
  - apply Store_inv, Hinv.
  - destruct (counters_ring_frame c n false) as ((Ht & He) & _).
    destruct Hinv as [Hr Hb]. unfold inv, ring_ok, bufs_ok.
    rewrite Ht, He. split; assumption.
  - destruct (lookups_frame c seqno 0 result) as (-> & _). exact Hinv.
  - destruct (lookups_frame c 0 0 result) as (_ & -> & _). exact Hinv.
  - destruct (lookups_frame c seqno idx result) as (_ & _ & ->). exact Hinv.
  - unfold Resize.
    destruct (resize_inv capacity c Hok Hinv) as [-> Hinv']. exact Hinv'.
  - unfold ResizeCond. run_M.
    destruct (_ && _); [exact Hinv |].
    destruct (_ && _); [exact Hinv |].
    destruct (resize_inv capacity c Hok Hinv) as [-> Hinv']. exact Hinv'.
  - destruct (counters_ring_frame c 0 false) as (_ & (Ht & He) & _).
    destruct Hinv as [Hr Hb]. unfold inv, ring_ok, bufs_ok.
    rewrite Ht, He. split; assumption.
  - destruct (counters_ring_frame c 0 reset) as (_ & _ & (Ht & He)).
    destruct Hinv as [Hr Hb]. unfold inv, ring_ok, bufs_ok.
    rewrite Ht, He. split; assumption.
Qed.

Lemma fresh_inv (capacity : Z) : 1 <= capacity <= 65535 -> inv (fresh capacity).
Proof.
  intros Hc. split; [apply fresh_ring_ok, Hc |].
  unfold bufs_ok, fresh. cbn [entries].
  apply Forall_replicate, length_zero_buf.
Qed.

Lemma run_inv (os : list op) (c : Cache) :
  Forall op_ok os -> inv c -> inv (run os c).
Proof.
  intros Hos. revert c. induction Hos as [| o os Ho _ IH]; intros c Hc.
  - exact Hc.
  - apply IH. apply exec_inv; assumption.
Qed.

(** X1: on a cache that [New] built with 1 to 65535 slots, after any
    calls that resize it only within that range, the ring has 1 to 65535
    slots of 1500 bytes, [tail] is one of them, and [Store] returns the
    slot it wrote, which is that [tail]: no call sequence brings [Store]
    to panic. *)
Theorem Store_never_panics
    (capacity : Z) (os : list op) (seqno : Z) (buf : list byte) :
  1 <= capacity <= 65535 -> Forall op_ok os ->
  let c := run os (fresh capacity) in
  1 <= len (entries c) <= 65535 /\
  bufs_ok c /\
  0 <= tail c < len (entries c) /\
  exists first', fst (Store seqno buf c) = Ret (first', tail c).
Proof.
  intros Hcap Hos c.
  destruct (run_inv os (fresh capacity) Hos (fresh_inv capacity Hcap))
    as [[Htail Hlen] Hbufs].
  fold c in Htail, Hlen, Hbufs.
  repeat split; try assumption; try lia.
  destruct (Store_ok seqno buf c Htail Hlen) as (e & _ & ->).
  eexists. reflexivity.
Qed.

Lemma Store_never_panics_witness :
  let c := run [OpStore 7 [x01]; OpResize 8; OpGetAt 7 8 []; OpResizeCond 2]
               (fresh 1) in
  1 <= len (entries c) <= 65535 /\
  bufs_ok c /\
  0 <= tail c < len (entries c) /\
  exists first', fst (Store 9 [x02] c) = Ret (first', tail c).
Proof.
  apply (Store_never_panics 1
           [OpStore 7 [x01]; OpResize 8; OpGetAt 7 8 []; OpResizeCond 2]).
  - lia.
  - repeat constructor; cbn; lia.
Defined.

(** ** Reading a slot *)

(** [GetAt] on a slot of the ring. *)
Lemma GetAt_slot (seqno idx : Z) (out : list byte) (c : Cache) (e : entry) :
  0 <= idx -> entries c !! Z.to_nat idx = Some e ->
  GetAt seqno idx out c =
    (if entry_seqno e =? seqno then copyOut e out else Ret (0, out), c).
Proof.
  intros Hidx He.
  assert (Hlt : idx < len (entries c)).
  { apply lookup_lt_Some in He. unfold len. lia. }
  unfold GetAt. run_M.
  destruct (Z.gtb_spec idx (len (entries c))); [lia |].
  unfold index.
  destruct (Z.leb_spec 0 idx); [| lia].
  destruct (Z.ltb_spec idx (len (entries c))); [| lia].
  cbn [andb]. rewrite He.
  destruct (entry_seqno e =? seqno); cbn [negb]; [| reflexivity].
  destruct (copyOut e out); reflexivity.
Qed.

(** What a lookup copies out of a slot whose recorded length fits the
    caller's buffer: the first bytes of the slot, as many as the length
    says and at most [BufSize]. *)
Lemma copyOut_ok (e : entry) (out : list byte) :
  length (entry_buf e) = 1500%nat ->
  0 <= entry_length e <= len out ->
  copyOut e out =
    Ret (Z.of_nat (Nat.min (Z.to_nat (entry_length e)) 1500),
         take (Nat.min (Z.to_nat (entry_length e)) 1500) (entry_buf e) ++
         drop (Nat.min (Z.to_nat (entry_length e)) 1500) out).
Proof.
  intros Hbuf Hlen. unfold copyOut.
  rewrite slice_ok by lia.
  rewrite Z.sub_0_r. change (Z.to_nat 0) with 0%nat. rewrite drop_0.
  set (L := Z.to_nat (entry_length e)).
  assert (HL : (L <= length out)%nat) by (unfold len in Hlen; lia).
  unfold copy. rewrite length_take_le, Hbuf by lia.
  set (n := Nat.min L 1500).
  rewrite wrap16_small by lia.
  rewrite <- app_assoc. do 2 f_equal. f_equal.
  rewrite <- (take_drop L out) at 3.
  rewrite drop_app_le by (rewrite length_take; lia).
  reflexivity.
Qed.

(** A caller's buffer shorter than the recorded length is a run-time
    panic of [result[:length]]. *)
Lemma copyOut_short (e : entry) (out : list byte) :
  len out < entry_length e -> copyOut e out = Panic.
Proof.
  intros Hshort. unfold copyOut, slice.
  destruct (Z.leb_spec (entry_length e) (len out)); [lia |].
  rewrite andb_false_r. reflexivity.
Qed.

(** The first bytes of the slot that [Store] filled are those of the
    payload. *)
Lemma take_copy_payload (b p : list byte) (n : nat) :
  length b = 1500%nat -> (n <= Nat.min (length p) 1500)%nat ->
  take n (fst (copy b p)) = take n p.
Proof.
  intros Hb Hn. unfold copy. cbn [fst]. rewrite Hb.
  rewrite take_app_le by (rewrite length_take; lia).
  rewrite take_take. f_equal. lia.
Qed.

(** X2: a packet of fewer than 65536 bytes that [Store] has taken is
    read back by [GetAt] with the sequence number and the index that
    [Store] returned, into any buffer that can take its length: the
    payload, cut at 1500 bytes, is written over the start of the buffer
    and its size returned. *)
Theorem Store_GetAt_roundtrip
    (seqno : Z) (p out : list byte) (c : Cache) :
  inv c -> len p < 65536 -> len p <= len out ->
  let n := Nat.min (length p) 1500 in
  (exists first', fst (Store seqno p c) = Ret (first', tail c)) /\
  fst (GetAt seqno (tail c) out (snd (Store seqno p c))) =
    Ret (Z.of_nat n, take n p ++ drop n out).
Proof.
  intros [[Htail Hlen] Hbufs] Hp Hout n. unfold len in Hp, Hout.
  destruct (Store_ok seqno p c Htail Hlen) as (e & He & ->).
  split; [eexists; reflexivity |]. cbn [snd].
  pose proof (Forall_lookup_1 _ _ _ _ Hbufs He) as Hb. cbn beta in Hb.
  set (e' := mkEntry seqno (wrap16 (len p)) (fst (copy (entry_buf e) p))).
  rewrite (GetAt_slot seqno (tail c) out _ e'); [| lia |].
  - cbn [fst entry_seqno e']. rewrite Z.eqb_refl.
    rewrite copyOut_ok.
    + cbn [entry_length entry_buf e'].
      rewrite (wrap16_small (len p)) by (unfold len; lia).
      unfold len. rewrite Nat2Z.id. fold n.
      rewrite take_copy_payload by (assumption || lia). reflexivity.
    + cbn [entry_buf e']. rewrite copy_length. exact Hb.
    + cbn [entry_length e'].
      rewrite (wrap16_small (len p)) by (unfold len; lia).
      unfold len. lia.
  - cbn [entries with_tail with_entries].
    apply list_lookup_insert_eq. unfold len in Htail. lia.
Qed.

Lemma Store_GetAt_roundtrip_witness :
  (exists first', fst (Store 5 [x0a; x0b] (fresh 3)) = Ret (first', 0)) /\
  fst (GetAt 5 0 [x00; x00; x00] (snd (Store 5 [x0a; x0b] (fresh 3)))) =
    Ret (2, [x0a; x0b; x00]).
Proof.
  apply (Store_GetAt_roundtrip 5 [x0a; x0b] [x00; x00; x00] (fresh 3)).
  - apply fresh_inv. lia.
  - unfold len. simpl length. lia.
  - unfold len. simpl length. lia.
Defined.

(** X3: reading back into a buffer that is shorter than the packet is a
    run-time panic, and the cache stays as [Store] left it. *)
Theorem GetAt_short_buffer_panics
    (seqno : Z) (p out : list byte) (c : Cache) :
  inv c -> len out < len p < 65536 ->
  GetAt seqno (tail c) out (snd (Store seqno p c)) =
    (Panic, snd (Store seqno p c)).
Proof.
  intros [[Htail Hlen] Hbufs] Hp. unfold len in Hp.
  destruct (Store_ok seqno p c Htail Hlen) as (e & He & ->). cbn [snd].
  set (e' := mkEntry seqno (wrap16 (len p)) (fst (copy (entry_buf e) p))).
  rewrite (GetAt_slot seqno (tail c) out _ e'); [| lia |].
  - cbn [entry_seqno e']. rewrite Z.eqb_refl.
    rewrite copyOut_short; [reflexivity |].
    cbn [entry_length e'].
    rewrite (wrap16_small (len p)) by (unfold len; lia).
    unfold len. lia.
  - cbn [entries with_tail with_entries].
    apply list_lookup_insert_eq. unfold len in Htail. lia.
Qed.

Lemma GetAt_short_buffer_panics_witness :
  GetAt 5 0 [x00] (snd (Store 5 [x0a; x0b] (fresh 3))) =
    (Panic, snd (Store 5 [x0a; x0b] (fresh 3))).
Proof.
  apply (GetAt_short_buffer_panics 5 [x0a; x0b] [x00] (fresh 3)).
  - apply fresh_inv. lia.
  - unfold len. simpl length. lia.
Defined.

(** [GetAt] beyond the ring: 0 past the capacity, a panic at it. *)
Lemma GetAt_outside (seqno idx : Z) (out : list byte) (c : Cache) :
  len (entries c) <= idx ->
  GetAt seqno idx out c =
    (if idx >? len (entries c) then Ret (0, out) else Panic, c).
Proof.
  intros Hidx. unfold GetAt. run_M.
  destruct (Z.gtb_spec idx (len (entries c))); [reflexivity |].
  unfold index.
  destruct (Z.ltb_spec idx (len (entries c))); [lia |].
  rewrite andb_false_r. reflexivity.
Qed.

(** X4: [Store] reuses the slot at [tail] and no other: with any other
    index [GetAt] answers as before the call, and at the reused slot a
    stale pair, one with another sequence number than the packet just
    stored, is a miss. *)
Theorem Store_reuses_only_tail
    (seqno seqno' idx : Z) (p out : list byte) (c : Cache) :
  inv c -> 0 <= idx ->
  (idx <> tail c ->
   fst (GetAt seqno' idx out (snd (Store seqno p c))) =
   fst (GetAt seqno' idx out c)) /\
  (seqno' <> seqno ->
   fst (GetAt seqno' (tail c) out (snd (Store seqno p c))) = Ret (0, out)).
Proof.
  intros [[Htail Hlen] Hbufs] Hidx.
  destruct (Store_ok seqno p c Htail Hlen) as (e & He & ->). cbn [snd].
  set (e' := mkEntry seqno (wrap16 (len p)) (fst (copy (entry_buf e) p))).
  set (c' := with_tail _ _).
  assert (Hes : entries c' = <[Z.to_nat (tail c) := e']> (entries c))
    by reflexivity.
  assert (Hl : len (entries c') = len (entries c)).
  { rewrite Hes. unfold len. rewrite length_insert. reflexivity. }
  split.
  - intros Hne.
    destruct (Z.lt_ge_cases idx (len (entries c))) as [Hin | Hout].
    + assert (Hsome : is_Some (entries c !! Z.to_nat idx)).
      { apply lookup_lt_is_Some. unfold len in Hin. lia. }
      destruct Hsome as [e0 He0].
      rewrite (GetAt_slot seqno' idx out c' e0), (GetAt_slot seqno' idx out c e0);
        try assumption; [reflexivity |].
      rewrite Hes, list_lookup_insert_ne by lia. exact He0.
    + rewrite !GetAt_outside by lia. rewrite Hl. reflexivity.
  - intros Hne.
    rewrite (GetAt_slot seqno' (tail c) out c' e'); [| lia |].
    + cbn [fst entry_seqno e'].
      destruct (Z.eqb_spec seqno seqno'); [congruence | reflexivity].
    + rewrite Hes. apply list_lookup_insert_eq. unfold len in Htail. lia.
Qed.

Lemma Store_reuses_only_tail_witness :
  (1 <> tail (fresh 3) ->
   fst (GetAt 6 1 [x00] (snd (Store 5 [x0a] (fresh 3)))) =
   fst (GetAt 6 1 [x00] (fresh 3))) /\
  (6 <> 5 ->
   fst (GetAt 6 (tail (fresh 3)) [x00] (snd (Store 5 [x0a] (fresh 3)))) =
   Ret (0, [x00])).
Proof.
  apply (Store_reuses_only_tail 5 6 1 [x0a] [x00] (fresh 3)).
  - apply fresh_inv. lia.
  - lia.
Defined.

(** ** Eviction *)

(** [Get] finds nothing where no slot in use holds the sequence
    number. *)
Lemma Get_loop_miss (es : list entry) (seqno : Z) (out : list byte) :
  Forall (fun e => holds seqno e = false) es ->
  Get_loop es seqno out = Ret (0, out).
Proof.
  induction 1 as [| e es He _ IH]; [reflexivity |].
  cbn [Get_loop]. unfold holds in He.
  apply negb_false_iff in He. rewrite He. exact IH.
Qed.

(** [Get] stops at the first slot in use that holds the sequence
    number. *)
Lemma Get_loop_first
    (es : list entry) (seqno : Z) (out : list byte) (i : nat) (e : entry) :
  es !! i = Some e -> holds seqno e = true ->
  (forall k e', (k < i)%nat -> es !! k = Some e' -> holds seqno e' = false) ->
  Get_loop es seqno out = copyOut e out.
Proof.
  revert i. induction es as [| e0 es IH]; intros i Hi He Hbefore.
  - discriminate.
  - cbn [Get_loop]. destruct i as [| i].
    + injection Hi as ->. unfold holds in He.
      apply negb_true_iff in He. rewrite He. reflexivity.
    + assert (H0 : holds seqno e0 = false)
        by (apply (Hbefore 0%nat); [lia | reflexivity]).
      unfold holds in H0. apply negb_false_iff in H0. rewrite H0.
      apply (IH i); [exact Hi | exact He |].
      intros k e' Hk Hk'. apply (Hbefore (S k)); [lia | exact Hk'].
Qed.




(** ** Finding a stored packet *)

(** X6: when no other slot in use holds the sequence number, [Get] reads
    back what [Store] took, as [GetAt] does: the payload cut at 1500
    bytes, over the start of the caller's buffer.  An empty payload is
    stored but not found: the call returns 0 and leaves the buffer
    alone, like a miss. *)
Theorem Store_Get_roundtrip
    (seqno : Z) (p out : list byte) (c : Cache) :
  inv c ->
  (forall k e, k <> Z.to_nat (tail c) -> entries c !! k = Some e ->
               holds seqno e = false) ->
  len p < 65536 -> len p <= len out ->
  let n := Nat.min (length p) 1500 in
  fst (Get seqno out (snd (Store seqno p c))) =
    Ret (Z.of_nat n, take n p ++ drop n out).
Proof.
  intros [[Htail Hlen] Hbufs] Hothers Hp Hout n. unfold len in Hp, Hout.
  destruct (Store_ok seqno p c Htail Hlen) as (e & He & ->). cbn [snd].
  pose proof (Forall_lookup_1 _ _ _ _ Hbufs He) as Hb. cbn beta in Hb.
  set (e' := mkEntry seqno (wrap16 (len p)) (fst (copy (entry_buf e) p))).
  unfold Get. run_M. cbn [fst entries with_tail with_entries].
  assert (Hlp : wrap16 (len p) = Z.of_nat (length p))
    by (apply wrap16_small; unfold len; lia).
  assert (He' : <[Z.to_nat (tail c) := e']> (entries c) !! Z.to_nat (tail c)
                = Some e').
  { apply list_lookup_insert_eq. unfold len in Htail. lia. }
  destruct (Nat.eq_dec (length p) 0%nat) as [Hempty | Hfull].
  - rewrite Get_loop_miss.
    + subst n. rewrite Hempty. cbn [Nat.min take app drop]. reflexivity.
    + apply Forall_lookup_2. intros k e0 Hk.
      destruct (Nat.eq_dec k (Z.to_nat (tail c))) as [-> | Hne].
      * rewrite He' in Hk. injection Hk as <-.
        unfold holds. cbn [entry_length e']. rewrite Hlp, Hempty.
        reflexivity.
      * rewrite list_lookup_insert_ne in Hk by congruence.
        apply (Hothers k e0 Hne Hk).
  - rewrite (Get_loop_first _ seqno out (Z.to_nat (tail c)) e' He').
    + rewrite copyOut_ok.
      * cbn [entry_length entry_buf e']. rewrite Hlp, Nat2Z.id. fold n.
        rewrite take_copy_payload by (assumption || lia). reflexivity.
      * cbn [entry_buf e']. rewrite copy_length. exact Hb.
      * cbn [entry_length e']. rewrite Hlp. unfold len. lia.
    + unfold holds. cbn [entry_length entry_seqno e'].
      rewrite Hlp, Z.eqb_refl.
      destruct (Z.eqb_spec (Z.of_nat (length p)) 0); [lia | reflexivity].
    + intros k e0 Hk Hk0.
      rewrite list_lookup_insert_ne in Hk0 by lia.
      apply (Hothers k e0); [lia | exact Hk0].
Qed.

Lemma Store_Get_roundtrip_witness :
  fst (Get 5 [x00; x00; x00] (snd (Store 5 [x0a; x0b] (fresh 3)))) =
    Ret (2, [x0a; x0b; x00]).
Proof.
  apply (Store_Get_roundtrip 5 [x0a; x0b] [x00; x00; x00] (fresh 3)).
  - apply fresh_inv. lia.
  - intros k e _ Hk. unfold fresh in Hk. cbn [entries] in Hk.
    apply lookup_replicate_1 in Hk. destruct Hk as [-> _]. reflexivity.
  - unfold len. simpl length. lia.
  - unfold len. simpl length. lia.
Defined.



(** ** Resize *)

Lemma GetAt_same_slot
    (seqno i j : Z) (out : list byte) (c c' : Cache) (e : entry) :
  0 <= i -> 0 <= j ->
  entries c !! Z.to_nat i = Some e -> entries c' !! Z.to_nat j = Some e ->
  fst (GetAt seqno j out c') = fst (GetAt seqno i out c).
Proof.
  intros Hi Hj He He'.
  rewrite (GetAt_slot seqno i out c e Hi He).
  rewrite (GetAt_slot seqno j out c' e Hj He'). reflexivity.
Qed.

(** X8: on a cache whose [tail] lies within its ring, [Resize] to a
    capacity from 0 to 65535, the capacities that [New] accepts, returns
    and leaves a ring of exactly that many slots, each with its whole
    buffer; [tail] stays where it was when the new ring contains it and
    restarts at 0 otherwise; the statistics and the bitmap are not
    touched. *)
Theorem Resize_returns (capacity : Z) (c : Cache) :
  resizable c -> 0 <= capacity <= 65535 ->
  fst (Resize capacity c) = Ret tt /\
  len (entries (snd (Resize capacity c))) = capacity /\
  bufs_ok (snd (Resize capacity c)) /\
  tail (snd (Resize capacity c)) =
    (if (len (entries c) =? capacity) || (capacity >? tail c)
     then tail c else 0) /\
  statsOnly (snd (Resize capacity c)) = statsOnly c /\
  first (snd (Resize capacity c)) = first c /\
  bitmap (snd (Resize capacity c)) = bitmap c.
Proof.
  intros (Htail & Hlen & Hbufs) Hcap. unfold Resize.
  rewrite resize_eval
    by (assumption || (apply allocatable_small; lia)).
  cbn [fst snd].
  split; [reflexivity |].
  split; [apply resized_len; lia |].
  split; [apply resized_bufs, Hbufs |].
  split; [apply resized_tail, Htail |].
  unfold resized. split_tests; repeat split.
Qed.

Lemma Resize_returns_witness :
  fst (Resize 2 (snd (Store 5 [x0a] (fresh 3)))) = Ret tt /\
  len (entries (snd (Resize 2 (snd (Store 5 [x0a] (fresh 3)))))) = 2 /\
  bufs_ok (snd (Resize 2 (snd (Store 5 [x0a] (fresh 3))))) /\
  tail (snd (Resize 2 (snd (Store 5 [x0a] (fresh 3))))) =
    (if (len (entries (snd (Store 5 [x0a] (fresh 3)))) =? 2) ||
        (2 >? tail (snd (Store 5 [x0a] (fresh 3))))
     then tail (snd (Store 5 [x0a] (fresh 3))) else 0) /\
  statsOnly (snd (Resize 2 (snd (Store 5 [x0a] (fresh 3))))) =
    statsOnly (snd (Store 5 [x0a] (fresh 3))) /\
  first (snd (Resize 2 (snd (Store 5 [x0a] (fresh 3))))) =
    first (snd (Store 5 [x0a] (fresh 3))) /\
  bitmap (snd (Resize 2 (snd (Store 5 [x0a] (fresh 3))))) =
    bitmap (snd (Store 5 [x0a] (fresh 3))).
Proof.
  apply (Resize_returns 2 (snd (Store 5 [x0a] (fresh 3)))); [| lia].
  destruct (Store_inv 5 [x0a] (fresh 3) (fresh_inv 3 ltac:(lia)))
    as [[Htail Hlen] Hbufs].
  repeat split; try assumption; lia.
Defined.

(** X9: a resize to more slots than [tail] keeps every index below
    [tail] valid: [GetAt] answers there as it did before. *)
Theorem Resize_keeps_indices_below_tail
    (capacity seqno idx : Z) (out : list byte) (c : Cache) :
  resizable c -> tail c < capacity < 4611686018427387904 ->
  0 <= idx < tail c ->
  fst (GetAt seqno idx out (snd (Resize capacity c))) =
  fst (GetAt seqno idx out c).
Proof.
  intros (Htail & Hlen & Hbufs) Hcap Hidx. unfold Resize.
  destruct (resize_outcome capacity c Htail Hlen) as [-> | ->];
    [| reflexivity].
  cbn [snd].
  assert (Hsome : is_Some (entries c !! Z.to_nat idx)).
  { apply lookup_lt_is_Some. unfold len in Htail. lia. }
  destruct Hsome as [e He].
  apply (GetAt_same_slot seqno idx idx out c _ e); try lia; [exact He |].
  unfold resized.
  destruct (len (entries c) =? capacity); [exact He |].
  assert (Hpre : take (Z.to_nat (tail c)) (entries c) !! Z.to_nat idx = Some e)
    by (rewrite lookup_take_lt by lia; exact He).
  destruct (capacity >? len (entries c)); [| destruct (Z.gtb_spec capacity (tail c))];
    cbn [entries with_entries]; try lia;
    apply lookup_app_l_Some; exact Hpre.
Qed.

Lemma Resize_keeps_indices_below_tail_witness :
  fst (GetAt 5 0 [x00] (snd (Resize 2 (snd (Store 5 [x0a] (fresh 3)))))) =
  fst (GetAt 5 0 [x00] (snd (Store 5 [x0a] (fresh 3)))).
Proof.
  apply (Resize_keeps_indices_below_tail 2 5 0 [x00]
           (snd (Store 5 [x0a] (fresh 3)))).
  - destruct (Store_inv 5 [x0a] (fresh 3) (fresh_inv 3 ltac:(lia)))
      as [[Htail Hlen] Hbufs].
    repeat split; try assumption; lia.
  - split; [vm_compute; reflexivity | lia].
  - split; [lia | vm_compute; reflexivity].
Defined.

(** Slots that are not in use for [seqno] can be taken out of the ring
    without changing what [Get] finds. *)
Lemma Get_loop_skip
    (l1 zs l2 : list entry) (seqno : Z) (out : list byte) :
  Forall (fun e => holds seqno e = false) zs ->
  Get_loop (l1 ++ zs ++ l2) seqno out = Get_loop (l1 ++ l2) seqno out.
Proof.
  intros Hzs. induction l1 as [| e l1 IH].
  - cbn [app]. induction Hzs as [| z zs Hz _ IHz]; [reflexivity |].
    cbn [app Get_loop]. unfold holds in Hz.
    apply negb_false_iff in Hz. rewrite Hz. exact IHz.
  - cbn [app Get_loop]. rewrite IH. reflexivity.
Qed.

(** X10: growing the ring loses no packet: [Get] finds after the resize
    what it found before, for every sequence number. *)
Theorem Resize_grow_keeps_packets
    (capacity seqno : Z) (out : list byte) (c : Cache) :
  resizable c -> len (entries c) < capacity < 4611686018427387904 ->
  fst (Get seqno out (snd (Resize capacity c))) = fst (Get seqno out c).
Proof.
  intros (Htail & Hlen & Hbufs) Hcap. unfold Resize.
  destruct (resize_outcome capacity c Htail Hlen) as [-> | ->];
    [| reflexivity].
  cbn [snd].
  unfold Get. run_M. cbn [fst]. unfold resized.
  destruct (Z.eqb_spec (len (entries c)) capacity); [lia |].
  destruct (Z.gtb_spec capacity (len (entries c))); [| lia].
  cbn [entries with_entries].
  rewrite Get_loop_skip by (apply Forall_replicate; reflexivity).
  rewrite take_drop. reflexivity.
Qed.

Lemma Resize_grow_keeps_packets_witness :
  fst (Get 5 [x00] (snd (Resize 8 (snd (Store 5 [x0a] (fresh 3)))))) =
  fst (Get 5 [x00] (snd (Store 5 [x0a] (fresh 3)))).
Proof.
  apply (Resize_grow_keeps_packets 8 5 [x00] (snd (Store 5 [x0a] (fresh 3)))).
  - destruct (Store_inv 5 [x0a] (fresh 3) (fresh_inv 3 ltac:(lia)))
      as [[Htail Hlen] Hbufs].
    repeat split; try assumption; lia.
  - split; [vm_compute; reflexivity | lia].
Defined.

(** X11: between rings of at most 65535 slots, the sizes that [New]
    accepts and whose indices are [uint16], a resize moves the packets
    it keeps by a fixed offset.  Growing
    moves the slots from [tail] on up by the number of slots gained;
    shrinking to more than [tail] slots keeps the last slots of the ring
    and moves them down by the number of slots lost; shrinking to [tail]
    slots or fewer keeps the slots just below [tail], which then start
    at index 0.  In each case [GetAt] answers at the new index as it did
    at the old one. *)
Theorem Resize_relocates
    (capacity seqno idx : Z) (out : list byte) (c : Cache) :
  resizable c -> len (entries c) <= 65535 -> 0 <= capacity <= 65535 ->
  (len (entries c) < capacity -> tail c <= idx < len (entries c) ->
   fst (GetAt seqno (idx + (capacity - len (entries c))) out
          (snd (Resize capacity c))) = fst (GetAt seqno idx out c)) /\
  (tail c < capacity < len (entries c) ->
   tail c + (len (entries c) - capacity) <= idx < len (entries c) ->
   fst (GetAt seqno (idx - (len (entries c) - capacity)) out
          (snd (Resize capacity c))) = fst (GetAt seqno idx out c)) /\
  (capacity <= tail c -> capacity <> len (entries c) ->
   tail c - capacity <= idx < tail c ->
   fst (GetAt seqno (idx - (tail c - capacity)) out
          (snd (Resize capacity c))) = fst (GetAt seqno idx out c)).
Proof.
  intros (Htail & Hlen & Hbufs) Hring Hcap. unfold Resize.
  rewrite resize_eval
    by (assumption || (apply allocatable_small; lia)).
  cbn [snd]. unfold resized.
  assert (Hslot : forall i, 0 <= i < len (entries c) ->
            exists e, entries c !! Z.to_nat i = Some e).
  { intros i Hi. apply lookup_lt_is_Some. unfold len in Hi. lia. }
  split; [| split].
  - intros Hgrow Hidx.
    destruct (Hslot idx ltac:(lia)) as [e He].
    apply (GetAt_same_slot seqno idx _ out c _ e); try lia; [exact He |].
    destruct (Z.eqb_spec (len (entries c)) capacity); [lia |].
    destruct (Z.gtb_spec capacity (len (entries c))); [| lia].
    cbn [entries with_entries].
    rewrite lookup_app_r by (rewrite length_take; unfold len in *; lia).
    rewrite lookup_app_r
      by (rewrite length_take, length_replicate; unfold len in *; lia).
    rewrite lookup_drop, length_take, length_replicate.
    rewrite <- He. f_equal. unfold len in *. lia.
  - intros Hshrink Hidx.
    destruct (Hslot idx ltac:(lia)) as [e He].
    apply (GetAt_same_slot seqno idx _ out c _ e); try lia; [exact He |].
    destruct (Z.eqb_spec (len (entries c)) capacity); [lia |].
    destruct (Z.gtb_spec capacity (len (entries c))); [lia |].
    destruct (Z.gtb_spec capacity (tail c)); [| lia].
    cbn [entries with_entries].
    rewrite lookup_app_r by (rewrite length_take; unfold len in *; lia).
    rewrite lookup_drop, length_take.
    rewrite <- He. f_equal. unfold len in *. lia.
  - intros Hdrop Hne Hidx.
    destruct (Hslot idx ltac:(lia)) as [e He].
    apply (GetAt_same_slot seqno idx _ out c _ e); try lia; [exact He |].
    destruct (Z.eqb_spec (len (entries c)) capacity); [lia |].
    destruct (Z.gtb_spec capacity (len (entries c))); [lia |].
    destruct (Z.gtb_spec capacity (tail c)); [lia |].
    cbn [entries with_entries].
    rewrite lookup_take_lt by lia.
    rewrite lookup_drop.
    rewrite <- He. f_equal. lia.
Qed.

Lemma Resize_relocates_witness :
  fst (GetAt 6 0 [x00]
         (snd (Resize 1 (run (stores [(5, [x0a]); (6, [x0b])]) (fresh 3)))))
  = fst (GetAt 6 1 [x00] (run (stores [(5, [x0a]); (6, [x0b])]) (fresh 3))).
Proof.
  assert (Hr : resizable (run (stores [(5, [x0a]); (6, [x0b])]) (fresh 3))).
  { destruct (run_inv (stores [(5, [x0a]); (6, [x0b])]) (fresh 3))
      as [[Htail Hlen] Hbufs].
    - repeat constructor.
    - apply fresh_inv. lia.
    - repeat split; try assumption; lia. }
  assert (Hl : len (entries (run (stores [(5, [x0a]); (6, [x0b])]) (fresh 3)))
               <= 65535) by (vm_compute; discriminate).
  assert (Hc : 0 <= 1 <= 65535) by lia.
  destruct (Resize_relocates 1 6 1 [x00] _ Hr Hl Hc) as (_ & _ & Hlow).
  apply Hlow.
  - vm_compute. discriminate.
  - vm_compute. discriminate.
  - split; vm_compute; [discriminate | reflexivity].
Defined.

(** ** Refused and conditional resizes *)

(** X12: a negative capacity is not refused, as [New] refuses one that
    is too large: [Resize] panics in [make], leaving the cache as it was.
    [ResizeCond] declines the resize and returns false when [tail] lies
    in the upper half of the ring, or when [capacity * 2] overflows
    [int] to a number above the length of the ring, which takes a
    capacity below [- 2^62]; otherwise it panics in [make] as well,
    leaving the cache as it was. *)
Theorem negative_capacity_panics (capacity : Z) (c : Cache) :
  capacity < 0 -> 0 <= tail c ->
  Resize capacity c = (Panic, c) /\
  ResizeCond capacity c =
    (if (len (entries c) <? wrapInt (capacity * 2)) ||
        (tail c >? Z.quot (len (entries c)) 2)
     then Ret false else Panic, c) /\
  (- 4611686018427387904 <= capacity ->
   ResizeCond capacity c =
     (if tail c >? Z.quot (len (entries c)) 2 then Ret false else Panic, c)).
Proof.
  intros Hcap Htail.
  assert (Hlen : 0 <= len (entries c)) by (unfold len; lia).
  assert (Hresize : resize capacity c = (Panic, c)).
  { unfold resize. run_M.
    destruct (Z.eqb_spec (len (entries c)) capacity); [lia |].
    rewrite make_refuses by lia. reflexivity. }
  assert (Hq : Z.quot capacity 2 <= 0)
    by (Z.to_euclidean_division_equations; lia).
  assert (Hq' : 0 <= Z.quot (len (entries c)) 2)
    by (Z.to_euclidean_division_equations; lia).
  assert (Hgen : ResizeCond capacity c =
            (if (len (entries c) <? wrapInt (capacity * 2)) ||
                (tail c >? Z.quot (len (entries c)) 2)
             then Ret false else Panic, c)).
  { unfold ResizeCond. run_M.
    destruct (Z.geb_spec (len (entries c)) (Z.quot capacity 2)); [| lia].
    cbn [andb].
    destruct (len (entries c) <? wrapInt (capacity * 2)); [reflexivity |].
    cbn [orb].
    destruct (Z.gtb_spec (tail c) (Z.quot (len (entries c)) 2)).
    - destruct (Z.gtb_spec (tail c) (Z.quot capacity 2)); [reflexivity | lia].
    - cbn [andb]. rewrite Hresize. reflexivity. }
  split; [exact Hresize |]. split; [exact Hgen |].
  intros Hlow. rewrite Hgen, wrapInt_small by lia.
  destruct (Z.ltb_spec (len (entries c)) (capacity * 2)); [lia |].
  reflexivity.
Qed.

Lemma negative_capacity_panics_witness :
  Resize (-1) (fresh 4) = (Panic, fresh 4) /\
  ResizeCond (-1) (fresh 4) =
    (if (len (entries (fresh 4)) <? wrapInt (-1 * 2)) ||
        (tail (fresh 4) >? Z.quot (len (entries (fresh 4))) 2)
     then Ret false else Panic, fresh 4) /\
  (- 4611686018427387904 <= -1 ->
   ResizeCond (-1) (fresh 4) =
     (if tail (fresh 4) >? Z.quot (len (entries (fresh 4))) 2
      then Ret false else Panic, fresh 4)).
Proof. apply (negative_capacity_panics (-1) (fresh 4)); cbn; lia. Defined.

(** Below [- 2^62] the doubled capacity wraps around: [ResizeCond] on a
    fresh ring of four slots returns false where a capacity of -1
    panics. *)
Example ResizeCond_int_overflow :
  ResizeCond (- 4611686018427387905) (fresh 4) = (Ret false, fresh 4) /\
  ResizeCond (-1) (fresh 4) = (Panic, fresh 4).
Proof. split; reflexivity. Qed.

(** [ResizeCond] on a cache whose [tail] lies within its ring. *)
Lemma ResizeCond_eval (capacity : Z) (c : Cache) :
  resizable c -> 0 <= capacity <= 65535 ->
  ResizeCond capacity c =
    if ((len (entries c) >=? Z.quot capacity 2) &&
        (len (entries c) <? capacity * 2)) ||
       ((tail c >? Z.quot (len (entries c)) 2) &&
        (tail c >? Z.quot capacity 2))
    then (Ret false, c)
    else (Ret true, resized capacity c).
Proof.
  intros (Htail & Hlen & Hbufs) Hcap. unfold ResizeCond. run_M.
  rewrite wrapInt_small by lia.
  destruct (_ && _); [reflexivity |].
  destruct (_ && _); [reflexivity |].
  rewrite resize_eval
    by (assumption || (apply allocatable_small; lia)).
  reflexivity.
Qed.

(** X13: for a capacity from 1 to 65535, [ResizeCond] never panics on a
    cache whose [tail] lies within its ring: it returns false and leaves
    the cache untouched whenever the ring has at least half and less
    than twice the capacity asked for, and when it returns true the ring
    has exactly that capacity.
    Asking again for the same capacity then returns false and changes
    nothing. *)
Theorem ResizeCond_settles (capacity : Z) (c : Cache) :
  resizable c -> 1 <= capacity <= 65535 ->
  (Z.quot capacity 2 <= len (entries c) < capacity * 2 ->
   ResizeCond capacity c = (Ret false, c)) /\
  (fst (ResizeCond capacity c) = Ret false /\ snd (ResizeCond capacity c) = c
   \/
   fst (ResizeCond capacity c) = Ret true /\
   len (entries (snd (ResizeCond capacity c))) = capacity) /\
  ResizeCond capacity (snd (ResizeCond capacity c)) =
    (Ret false, snd (ResizeCond capacity c)).
Proof.
  intros Hres Hcap.
  assert (Hwithin : forall c', resizable c' ->
            Z.quot capacity 2 <= len (entries c') < capacity * 2 ->
            ResizeCond capacity c' = (Ret false, c')).
  { intros c' Hres' Hin. rewrite ResizeCond_eval by (assumption || lia).
    destruct (Z.geb_spec (len (entries c')) (Z.quot capacity 2)); [| lia].
    destruct (Z.ltb_spec (len (entries c')) (capacity * 2)); [| lia].
    reflexivity. }
  split; [apply Hwithin, Hres |].
  pose proof (ResizeCond_eval capacity c Hres ltac:(lia)) as Heval.
  destruct (_ || _) in Heval; rewrite Heval; cbn [fst snd].
  - split; [left; split; reflexivity |].
    rewrite <- Heval at 1. reflexivity.
  - destruct Hres as (Htail & Hlen & Hbufs).
    assert (Hl : len (entries (resized capacity c)) = capacity)
      by (apply resized_len; lia).
    split; [right; split; [reflexivity | exact Hl] |].
    apply Hwithin.
    + split; [| split; [lia | apply resized_bufs, Hbufs]].
      rewrite Hl, resized_tail by exact Htail.
      destruct (Z.eqb_spec (len (entries c)) capacity); cbn [orb]; [lia |].
      destruct (Z.gtb_spec capacity (tail c)); lia.
    + rewrite Hl. split; [Z.to_euclidean_division_equations; lia | lia].
Qed.

Lemma ResizeCond_settles_witness :
  (Z.quot 8 2 <= len (entries (fresh 3)) < 8 * 2 ->
   ResizeCond 8 (fresh 3) = (Ret false, fresh 3)) /\
  (fst (ResizeCond 8 (fresh 3)) = Ret false /\
   snd (ResizeCond 8 (fresh 3)) = fresh 3
   \/
   fst (ResizeCond 8 (fresh 3)) = Ret true /\
   len (entries (snd (ResizeCond 8 (fresh 3)))) = 8) /\
  ResizeCond 8 (snd (ResizeCond 8 (fresh 3))) =
    (Ret false, snd (ResizeCond 8 (fresh 3))).
Proof.
  apply (ResizeCond_settles 8 (fresh 3)); [| lia].
  destruct (fresh_inv 3 ltac:(lia)) as [[Htail Hlen] Hbufs].
  repeat split; try assumption; lia.
Defined.

(** ** The arrival window *)

Lemma uint32_high_bits (b i : Z) :
  0 <= b < 4294967296 -> 32 <= i -> Z.testbit b i = false.
Proof.
  intros Hb Hi. destruct (Z.eq_dec b 0) as [-> | Hnz]; [apply Z.bits_0 |].
  apply Z.bits_above_log2; [lia |].
  assert (Z.log2 b < 32); [| lia].
  apply Z.log2_lt_pow2; [lia |]. change (2 ^ 32) with 4294967296. lia.
Qed.


(** The bit that [set] adds for a distance below 32. *)
Lemma one_bit (d : Z) :
  0 <= d < 32 ->
  wrap32 (Z.shiftl 1 d) = 2 ^ d /\ 0 <= 2 ^ d < 4294967296.
Proof.
  intros Hd. rewrite Z.shiftl_1_l.
  assert (Hp : 0 < 2 ^ d < 4294967296).
  { split; [apply Z.pow_pos_nonneg; lia |].
    change 4294967296 with (2 ^ 32). apply Z.pow_lt_mono_r; lia. }
  split; [apply wrap32_small; lia | lia].
Qed.

(** What [set] does, branch by branch, with the wrap-arounds resolved. *)
Lemma set_eval (seqno : Z) (c : Cache) :
  0 <= seqno < 65536 -> window_ok c ->
  let d := wrap16 (seqno - first c) in
  snd (set seqno c) =
    if (bitmap c =? 0) || seqnoInvalid seqno (first c)
    then with_bitmap 1 (with_first seqno c)
    else if 32768 <=? d then c
    else if d <? 32 then with_bitmap (Z.lor (bitmap c) (2 ^ d)) c
    else with_bitmap (Z.lor (Z.shiftr (bitmap c) (d - 31)) (2 ^ 31))
           (with_first (wrap16 (first c + (d - 31))) c).
Proof.
  intros Hs [Hf Hb] d. unfold set. run_M.
  pose proof (wrap16_range (seqno - first c)) as Hd. fold d in Hd.
  destruct ((bitmap c =? 0) || seqnoInvalid seqno (first c)); [reflexivity |].
  fold d. rewrite top_bit_clear by exact Hd.
  destruct (Z.ltb_spec d 32768) as [Hfwd | Hback];
    destruct (Z.leb_spec 32768 d); try lia; cbn [negb].
  - destruct (Z.ltb_spec d 32) as [Hnear | Hfar].
    + cbn [snd]. destruct (one_bit d ltac:(lia)) as [-> _]. reflexivity.
    + cbn [snd first bitmap with_first with_bitmap].
      rewrite (wrap16_small (d - 31)) by lia.
      rewrite wrap16_sub_r.
      replace (seqno - (first c + (d - 31)))
        with (seqno - first c - (d - 31)) by lia.
      rewrite <- wrap16_sub_l. fold d.
      replace (d - (d - 31)) with 31 by lia.
      change (wrap16 31) with 31.
      destruct (one_bit 31 ltac:(lia)) as [-> _].
      destruct c; reflexivity.
  - destruct c; reflexivity.
Qed.



(** The distance of [x] from an anchor moved forward by [shift]. *)
Lemma wrap16_shifted (x f shift : Z) :
  wrap16 (x - wrap16 (f + shift)) = wrap16 (wrap16 (x - f) - shift).
Proof.
  rewrite wrap16_sub_r, wrap16_sub_l. f_equal. lia.
Qed.

(** Two sequence numbers at the same distance from an anchor are the
    same. *)
Lemma same_distance (x y f : Z) :
  0 <= x < 65536 -> 0 <= y < 65536 ->
  wrap16 (x - f) = wrap16 (y - f) -> x = y.
Proof.
  intros Hx Hy Heq. unfold wrap16 in Heq.
  assert (Hd : (x - y) mod 65536 = 0).
  { replace (x - y) with ((x - f) - (y - f)) by lia.
    rewrite Zminus_mod, Heq, Z.sub_diag. reflexivity. }
  apply Z.mod_divide in Hd; [| lia]. destruct Hd as [q Hq]. lia.
Qed.

(** X15: an arrival stays marked across [set] for another sequence
    number, as long as the window is not restarted and still reaches
    back to it. *)
Theorem set_keeps_recorded (seqno x : Z) (c : Cache) :
  0 <= seqno < 65536 -> window_ok c ->
  recorded x c = true ->
  bitmap c <> 0 -> seqnoInvalid seqno (first c) = false ->
  wrap16 (x - first (snd (set seqno c))) < 32 ->
  recorded x (snd (set seqno c)) = true.
Proof.
  intros Hs Hw Hrec Hnz Hvalid Hin. pose proof Hw as [Hf Hb].
  rewrite (set_eval seqno c Hs Hw) in *.
  destruct (Z.eqb_spec (bitmap c) 0) as [| _]; [contradiction |].
  rewrite Hvalid in *. cbn [orb] in *.
  pose proof (wrap16_range (seqno - first c)) as Hd.
  set (d := wrap16 (seqno - first c)) in *.
  unfold recorded in Hrec. apply andb_true_iff in Hrec.
  destruct Hrec as [Hdx Hbit]. apply Z.ltb_lt in Hdx.
  pose proof (wrap16_range (x - first c)) as Hdx0.
  set (dx := wrap16 (x - first c)) in *.
  destruct (32768 <=? d); [unfold recorded; fold dx;
    apply andb_true_iff; split; [apply Z.ltb_lt, Hdx | exact Hbit] |].
  destruct (Z.ltb_spec d 32) as [Hnear | Hfar].
  - unfold recorded. cbn [first bitmap with_bitmap]. fold dx.
    apply andb_true_iff. split; [apply Z.ltb_lt, Hdx |].
    rewrite Z.lor_spec, Hbit. reflexivity.
  - cbn [first bitmap with_first with_bitmap] in Hin.
    unfold recorded. cbn [first bitmap with_first with_bitmap].
    rewrite wrap16_shifted in *. fold dx in Hin |- *.
    destruct (Z.lt_ge_cases dx (d - 31)) as [Hgone | Hstill].
    + (* the window has moved past [x] *)
      assert (Hw' : wrap16 (dx - (d - 31)) = 65536 + (dx - (d - 31))).
      { unfold wrap16. symmetry.
        apply (Z.mod_unique_pos _ _ (-1)); lia. }
      lia.
    + rewrite (wrap16_small (dx - (d - 31))) by lia.
      apply andb_true_iff. split; [apply Z.ltb_lt; lia |].
      rewrite Z.lor_spec, Z.shiftr_spec by lia.
      replace (dx - (d - 31) + (d - 31)) with dx by lia.
      rewrite Hbit. reflexivity.
Qed.

Lemma set_keeps_recorded_witness :
  recorded 102 (snd (set 133 (with_bitmap 5 (with_first 100 (fresh 4)))))
    = true.
Proof.
  apply (set_keeps_recorded 133 102 (with_bitmap 5 (with_first 100 (fresh 4)))).
  - lia.
  - split; cbn; lia.
  - reflexivity.
  - cbn. lia.
  - reflexivity.
  - vm_compute. reflexivity.
Defined.

(** X16: [set] marks no arrival but the one it is given: a sequence
    number found marked after the call is that one, or was marked
    before. *)
Theorem set_marks_nothing_else (seqno x : Z) (c : Cache) :
  0 <= seqno < 65536 -> 0 <= x < 65536 -> window_ok c ->
  recorded x (snd (set seqno c)) = true ->
  x = seqno \/ recorded x c = true.
Proof.
  intros Hs Hx Hw Hrec. pose proof Hw as [Hf Hb].
  rewrite (set_eval seqno c Hs Hw) in Hrec.
  pose proof (wrap16_range (seqno - first c)) as Hd.
  set (d := wrap16 (seqno - first c)) in *.
  pose proof (wrap16_range (x - first c)) as Hdx.
  destruct ((bitmap c =? 0) || seqnoInvalid seqno (first c)).
  - left. unfold recorded in Hrec.
    cbn [first bitmap with_first with_bitmap] in Hrec.
    apply andb_true_iff in Hrec. destruct Hrec as [_ Hbit].
    change 1 with (2 ^ 0) in Hbit.
    pose proof (wrap16_range (x - seqno)) as Hr.
    rewrite Z.pow2_bits_eqb in Hbit by lia. apply Z.eqb_eq in Hbit.
    apply (same_distance x seqno seqno Hx Hs).
    rewrite <- Hbit, Z.sub_diag. reflexivity.
  - destruct (32768 <=? d); [right; exact Hrec |].
    unfold recorded in Hrec. apply andb_true_iff in Hrec.
    destruct Hrec as [Hin Hbit]. apply Z.ltb_lt in Hin.
    destruct (Z.ltb_spec d 32) as [Hnear | Hfar];
      cbn [first bitmap with_first with_bitmap] in Hin, Hbit.
    + rewrite Z.lor_spec, Z.pow2_bits_eqb in Hbit by lia.
      apply orb_true_iff in Hbit. destruct Hbit as [Hold | Hnew].
      * right. unfold recorded. apply andb_true_iff.
        split; [apply Z.ltb_lt, Hin | exact Hold].
      * left. apply Z.eqb_eq in Hnew.
        apply (same_distance x seqno (first c) Hx Hs). fold d. lia.
    + rewrite wrap16_shifted in Hin, Hbit.
      set (dx := wrap16 (x - first c)) in *.
      pose proof (wrap16_range (dx - (d - 31))) as Hdx'.
      set (dx' := wrap16 (dx - (d - 31))) in *.
      rewrite Z.lor_spec, Z.pow2_bits_eqb in Hbit by lia.
      apply orb_true_iff in Hbit. destruct Hbit as [Hold | Hnew].
      * right. rewrite Z.shiftr_spec in Hold by lia.
        assert (Hlow : dx' + (d - 31) < 32).
        { destruct (Z.lt_ge_cases (dx' + (d - 31)) 32) as [| Hhigh];
            [assumption |].
          rewrite (uint32_high_bits _ _ Hb Hhigh) in Hold. discriminate. }
        assert (Hdist : dx = dx' + (d - 31)).
        { subst dx'. unfold wrap16 in *.
          pose proof (Z.div_mod (dx - (d - 31)) 65536 ltac:(lia)) as Hdm.
          assert ((dx - (d - 31)) / 65536 = 0); [| lia].
          apply Z.div_small_iff; [lia |].
          left. nia. }
        unfold recorded. fold dx. rewrite Hdist.
        apply andb_true_iff. split; [apply Z.ltb_lt, Hlow | exact Hold].
      * left. apply Z.eqb_eq in Hnew.
        apply (same_distance x seqno (wrap16 (first c + (d - 31))) Hx Hs).
        rewrite !wrap16_shifted. fold d dx dx'. rewrite <- Hnew.
        replace (d - (d - 31)) with 31 by lia. reflexivity.
Qed.

Lemma set_marks_nothing_else_witness :
  102 = 133 \/ recorded 102 (with_bitmap 5 (with_first 100 (fresh 4))) = true.
Proof.
  apply (set_marks_nothing_else 133 102
           (with_bitmap 5 (with_first 100 (fresh 4)))).
  - lia.
  - lia.
  - split; cbn; lia.
  - vm_compute. reflexivity.
Defined.

(** ** What BitmapGet reports *)

(** A bit of [missing] is a clear bit among the 17 lowest of the
    bitmap. *)
Lemma missing_bits (c : Cache) (i : Z) :
  0 <= i ->
  Z.testbit (missing c) i = negb (Z.testbit (bitmap c) i) && (i <? 17).
Proof.
  intros Hi. unfold missing, not32.
  change 131071 with (Z.ones 17). change 4294967295 with (Z.ones 32).
  rewrite Z.land_spec, Z.lxor_spec, !Z.testbit_ones_nonneg by lia.
  destruct (Z.ltb_spec i 17); destruct (Z.ltb_spec i 32); try lia;
    destruct (Z.testbit (bitmap c) i); reflexivity.
Qed.

(** The result of [BitmapGet], by the trailing zeros of [missing]. *)
Lemma BitmapGet_result (c : Cache) :
  0 <= first c < 65536 ->
  missing c = 0 /\ fst (BitmapGet c) = Ret (false, first c, 0) \/
  0 < missing c /\ 0 <= ctz (missing c) < 17 /\
  fst (BitmapGet c) =
    Ret (true, wrap16 (first c + ctz (missing c)),
         Z.shiftr (missing c) (ctz (missing c) + 1)).
Proof.
  intros Hfirst. unfold BitmapGet. run_M. fold (missing c).
  pose proof (missing_range c) as Hm.
  destruct (Z.eqb_spec (missing c) 0) as [Hz | Hnz];
    [left; split; [exact Hz | reflexivity] |].
  right. split; [lia |].
  destruct (missing c) as [| p | p] eqn:Hp; try lia. cbn [ctz].
  pose proof (ctz_pos_pow2 p) as Hpow.
  pose proof (ctz_pos_nonneg p) as Hn.
  assert (Hctz : ctz_pos p < 17).
  { apply Z.nle_gt. intros Hge.
    pose proof (Z.pow_le_mono_r 2 17 (ctz_pos p) ltac:(lia) Hge) as Hle.
    change (2 ^ 17) with 131072 in Hle. lia. }
  split; [lia |].
  rewrite BitmapGet_loop_ctz by (change (Z.of_nat 32) with 32; lia).
  cbn [fst]. rewrite Z.shiftr_shiftr by lia.
  assert (Hmask : wrap16 (Z.shiftr (Z.pos p) (ctz_pos p + 1)) =
                  Z.shiftr (Z.pos p) (ctz_pos p + 1)).
  { apply wrap16_small. rewrite Z.shiftr_div_pow2 by lia.
    assert (Hp2 : 2 * 2 ^ ctz_pos p = 2 ^ (ctz_pos p + 1))
      by (rewrite Z.pow_add_r by lia; lia).
    split; [apply Z.div_pos; lia |].
    apply Z.div_lt_upper_bound; lia. }
  rewrite Hmask.
  destruct (Z.eqb_spec (ctz_pos p) 0) as [-> | _]; [| reflexivity].
  rewrite Z.add_0_r, (wrap16_small (first c)) by lia. reflexivity.
Qed.

(** X17: [BitmapGet] reports no loss exactly when the 17 sequence
    numbers it drains are all marked as arrived.  Otherwise the sequence
    number it reports is the first of them that is not marked, and bit
    [j] of the mask tells whether the one [j + 1] places after it is not
    marked either, among the 17 drained. *)
Theorem BitmapGet_reports_first_missing (c : Cache) :
  0 <= first c < 65536 ->
  (forall i, 0 <= i < 17 -> Z.testbit (bitmap c) i = true) /\
  fst (BitmapGet c) = Ret (false, first c, 0)
  \/
  exists k mask,
    0 <= k < 17 /\
    Z.testbit (bitmap c) k = false /\
    (forall i, 0 <= i < k -> Z.testbit (bitmap c) i = true) /\
    fst (BitmapGet c) = Ret (true, wrap16 (first c + k), mask) /\
    forall j, 0 <= j ->
      Z.testbit mask j =
        negb (Z.testbit (bitmap c) (k + 1 + j)) && (k + 1 + j <? 17).
Proof.
  intros Hfirst.
  destruct (BitmapGet_result c Hfirst) as [[Hz Hres] | (Hpos & Hk & Hres)].
  - left. split; [| exact Hres].
    intros i Hi. pose proof (missing_bits c i ltac:(lia)) as Hbit.
    rewrite Hz, Z.bits_0 in Hbit.
    destruct (Z.ltb_spec i 17); [| lia].
    destruct (Z.testbit (bitmap c) i); [reflexivity | discriminate].
  - right. destruct (ctz_bits (missing c) Hpos) as [Hset Hclear].
    set (k := ctz (missing c)) in *.
    exists k, (Z.shiftr (missing c) (k + 1)).
    split; [exact Hk |].
    rewrite missing_bits in Hset by lia.
    apply andb_true_iff in Hset. destruct Hset as [Hset _].
    split; [apply negb_true_iff, Hset |].
    split.
    + intros i Hi. specialize (Hclear i Hi).
      rewrite missing_bits in Hclear by lia.
      destruct (Z.ltb_spec i 17); [| lia].
      destruct (Z.testbit (bitmap c) i); [reflexivity | discriminate].
    + split; [exact Hres |].
      intros j Hj. rewrite Z.shiftr_spec, missing_bits by lia.
      replace (j + (k + 1)) with (k + 1 + j) by lia. reflexivity.
Qed.

Lemma BitmapGet_reports_first_missing_witness :
  (forall i, 0 <= i < 17 ->
     Z.testbit (bitmap (with_bitmap 33 (with_first 10 (fresh 4)))) i = true) /\
  fst (BitmapGet (with_bitmap 33 (with_first 10 (fresh 4)))) =
    Ret (false, first (with_bitmap 33 (with_first 10 (fresh 4))), 0)
  \/
  exists k mask,
    0 <= k < 17 /\
    Z.testbit (bitmap (with_bitmap 33 (with_first 10 (fresh 4)))) k = false /\
    (forall i, 0 <= i < k ->
       Z.testbit (bitmap (with_bitmap 33 (with_first 10 (fresh 4)))) i = true) /\
    fst (BitmapGet (with_bitmap 33 (with_first 10 (fresh 4)))) =
      Ret (true, wrap16 (first (with_bitmap 33 (with_first 10 (fresh 4))) + k),
           mask) /\
    forall j, 0 <= j ->
      Z.testbit mask j =
        negb (Z.testbit (bitmap (with_bitmap 33 (with_first 10 (fresh 4))))
                (k + 1 + j)) && (k + 1 + j <? 17).
Proof.
  apply (BitmapGet_reports_first_missing
           (with_bitmap 33 (with_first 10 (fresh 4)))).
  cbn. lia.
Defined.

(** ** Statistics of a stream *)

(** [cycle << 16 | last] is [65536 * cycle + last]. *)
Lemma extSeqno_value (c : Cache) :
  0 <= last c < 65536 -> 0 <= cycle c < 65536 ->
  extSeqno c = 65536 * cycle c + last c.
Proof.
  intros Hl Hc. unfold extSeqno.
  rewrite Z.shiftl_mul_pow2 by lia. change (2 ^ 16) with 65536.
  rewrite wrap32_small by lia.
  assert (Hdisj : forall i, 0 <= i ->
            Z.testbit (cycle c * 65536) i && Z.testbit (last c) i = false).
  { intros i Hi. destruct (Z.lt_ge_cases i 16) as [Hlow | Hhigh].
    - change 65536 with (2 ^ 16). rewrite Z.mul_pow2_bits_low by lia.
      reflexivity.
    - destruct (Z.eq_dec (last c) 0) as [-> | Hnz];
        [rewrite Z.bits_0; apply andb_false_r |].
      rewrite (Z.bits_above_log2 (last c) i); [apply andb_false_r | lia |].
      assert (Z.log2 (last c) < 16); [| lia].
      apply Z.log2_lt_pow2; [lia |]. change (2 ^ 16) with 65536. lia. }
  assert (Hland : Z.land (cycle c * 65536) (last c) = 0).
  { apply Z.bits_inj'. intros i Hi.
    rewrite Z.land_spec, Z.bits_0. apply Hdisj, Hi. }
  rewrite (Z.mul_comm 65536), (Z.add_nocarry_lxor _ _ Hland).
  apply Z.bits_inj'. intros i Hi.
  rewrite Z.lor_spec, Z.lxor_spec. specialize (Hdisj i Hi).
  destruct (Z.testbit (cycle c * 65536) i), (Z.testbit (last c) i);
    try reflexivity; discriminate.
Qed.

(** The statistics after a packet that is not taken for a restart of
    the stream. *)
Lemma updateStats_valid (seqno : Z) (c : Cache) :
  lastValid c = true -> seqnoInvalid seqno (last c) = false ->
  snd (updateStats seqno c) =
    if negb (Z.land (wrap16 (last c - seqno)) 32768 =? 0) then
      with_last seqno
        ((if seqno <? last c
          then with_cycle (wrap16 (cycle c + 1)) else fun c => c)
           (with_lost
              (wrap32 (lost c + wrap16 (wrap16 (seqno - last c) - 1)))
              (with_expected
                 (wrap32 (expected c + wrap16 (seqno - last c))) c)))
    else if lost c >? 0 then with_lost (wrap32 (lost c - 1)) c
    else c.
Proof.
  intros Hv Hi. unfold updateStats. run_M. rewrite Hv, Hi. cbn [negb orb].
  destruct (negb (Z.land (wrap16 (last c - seqno)) 32768 =? 0)).
  - destruct (seqno <? last c); reflexivity.
  - destruct (lost c >? 0); reflexivity.
Qed.

(** X18: as long as no packet is taken for a restart of the stream,
    [expected] moves with the extended sequence number: a [Store] adds
    the same amount to both (modulo 2^32), the forward distance of the
    new packet, or nothing for a packet that is not ahead.  The
    difference between the two is the same before and after. *)
Theorem Store_expected_follows_extSeqno
    (seqno : Z) (buf : list byte) (c : Cache) :
  stats_ok c -> 0 <= seqno < 65536 ->
  lastValid c = true -> seqnoInvalid seqno (last c) = false ->
  wrap32 (extSeqno (snd (Store seqno buf c))
          - expected (snd (Store seqno buf c))) =
  wrap32 (extSeqno c - expected c).
Proof.
  intros (Hl & Hc & He & Hlo) Hs Hv Hi.
  set (c' := snd (Store seqno buf c)).
  change (extSeqno c') with (extSeqno (statsOnly c')).
  change (expected c') with (expected (statsOnly c')).
  subst c'. rewrite Store_statsOnly, <- updateStats_statsOnly.
  change (extSeqno (statsOnly ?x)) with (extSeqno x).
  change (expected (statsOnly ?x)) with (expected x).
  rewrite (updateStats_valid seqno c Hv Hi).
  rewrite (extSeqno_value c Hl Hc).
  destruct (negb (Z.land (wrap16 (last c - seqno)) 32768 =? 0)) eqn:Hahead.
  - destruct (ahead_gap seqno (last c) Hahead) as [Hgap _].
    pose proof (wrap16_range (cycle c + 1)) as Hc1.
    destruct (Z.ltb_spec seqno (last c)) as [Hwrap | Hfwd].
    + rewrite extSeqno_value by (cbn; lia).
      cbn [last cycle expected with_last with_cycle with_lost with_expected].
      assert (Hg : wrap16 (seqno - last c) = seqno - last c + 65536).
      { unfold wrap16. symmetry. apply (Z.mod_unique_pos _ _ (-1)); lia. }
      rewrite Hg in *. unfold wrap16, wrap32 in *.
      Z.to_euclidean_division_equations. lia.
    + rewrite extSeqno_value by (cbn; lia).
      cbn [last cycle expected with_last with_lost with_expected].
      assert (Hg : wrap16 (seqno - last c) = seqno - last c)
        by (apply wrap16_small; lia).
      rewrite Hg in *. unfold wrap32.
      Z.to_euclidean_division_equations. lia.
  - destruct (lost c >? 0);
      rewrite extSeqno_value by (cbn; lia); reflexivity.
Qed.

Lemma Store_expected_follows_extSeqno_witness :
  wrap32
    (extSeqno (snd (Store 2 [x0a] (snd (Store 65530 [x0b] (fresh 4)))))
     - expected (snd (Store 2 [x0a] (snd (Store 65530 [x0b] (fresh 4))))))
  = wrap32 (extSeqno (snd (Store 65530 [x0b] (fresh 4)))
            - expected (snd (Store 65530 [x0b] (fresh 4)))).
Proof.
  apply (Store_expected_follows_extSeqno 2 [x0a]
           (snd (Store 65530 [x0b] (fresh 4)))).
  - repeat split; vm_compute; congruence.
  - lia.
  - reflexivity.
  - vm_compute. reflexivity.
Defined.

(** The statistics after a run of [Store]s are those of lines 82 to 99
    run over its sequence numbers. *)
Lemma stores_statsOnly (ss : list (Z * list byte)) (c : Cache) :
  statsOnly (run (stores ss) c) =
    foldl (fun st sb => snd (updateStats (fst sb) st)) (statsOnly c) ss.
Proof.
  revert c. induction ss as [| [s p] ss IH]; intros c; [reflexivity |].
  change (run (stores ((s, p) :: ss)) c)
    with (run (stores ss) (snd (Store s p c))).
  rewrite IH, Store_statsOnly. reflexivity.
Qed.

(** Packets in order after [last]: each counts as one expected packet
    and none as lost; [cycle] counts the passages from 65535 to 0. *)
Lemma consecutive_stats (ps : list (list byte)) (c : Cache) :
  stats_ok c -> lastValid c = true ->
  let c' := foldl (fun st sb => snd (updateStats (fst sb) st)) c
              (consecutive (wrap16 (last c + 1)) ps) in
  last c' = wrap16 (last c + len ps) /\
  cycle c' = wrap16 (cycle c + (last c + len ps) / 65536) /\
  expected c' = wrap32 (expected c + len ps) /\
  lost c' = lost c /\ totalLost c' = totalLost c.
Proof.
  revert c. induction ps as [| p ps IH]; intros c (Hl & Hc & He & Hlo) Hv.
  - cbn [consecutive foldl]. unfold len. cbn [length Z.of_nat].
    rewrite !Z.add_0_r, Z.div_small, Z.add_0_r by lia.
    rewrite !wrap16_small, wrap32_small by lia. repeat split.
  - cbn [consecutive foldl fst].
    set (s := wrap16 (last c + 1)).
    pose proof (wrap16_range (last c + 1)) as Hs. fold s in Hs.
    assert (Hd : wrap16 (s - last c) = 1).
    { subst s. rewrite wrap16_sub_l.
      replace (last c + 1 - last c) with 1 by lia. reflexivity. }
    assert (Hi : seqnoInvalid s (last c) = false).
    { rewrite seqnoInvalid_unfold, Hd. reflexivity. }
    assert (Hahead : negb (Z.land (wrap16 (last c - s)) 32768 =? 0) = true).
    { subst s. rewrite wrap16_sub_r.
      replace (last c - (last c + 1)) with (-1) by lia. reflexivity. }
    pose proof (updateStats_valid s c Hv Hi) as Hstep.
    rewrite Hahead, Hd in Hstep. change (wrap16 (1 - 1)) with 0 in Hstep.
    rewrite Z.add_0_r, (wrap32_small (lost c)) in Hstep by lia.
    set (c1 := snd (updateStats s c)) in *.
    assert (Hl1 : last c1 = s)
      by (rewrite Hstep; destruct (s <? last c); reflexivity).
    assert (He1 : expected c1 = wrap32 (expected c + 1))
      by (rewrite Hstep; destruct (s <? last c); reflexivity).
    assert (Hlo1 : lost c1 = lost c)
      by (rewrite Hstep; destruct (s <? last c); reflexivity).
    assert (Ht1 : totalLost c1 = totalLost c)
      by (rewrite Hstep; destruct (s <? last c); reflexivity).
    assert (Hv1 : lastValid c1 = true)
      by (rewrite Hstep; destruct (s <? last c); exact Hv).
    assert (Hc1 : cycle c1 =
                  if s <? last c then wrap16 (cycle c + 1) else cycle c)
      by (rewrite Hstep; destruct (s <? last c); reflexivity).
    assert (Hok1 : stats_ok c1).
    { unfold stats_ok. rewrite Hl1, He1, Hlo1, Hc1.
      pose proof (wrap16_range (cycle c + 1)).
      pose proof (wrap32_range (expected c + 1)).
      destruct (s <? last c); lia. }
    destruct (IH c1 Hok1 Hv1) as (IHl & IHc & IHe & IHlo & IHt).
    rewrite Hl1 in IHl, IHc, IHe, IHlo, IHt. fold s.
    rewrite IHl, IHc, IHe, IHlo, IHt, He1, Hlo1, Ht1, Hc1.
    assert (Hlen : len (p :: ps) = 1 + len ps)
      by (unfold len; cbn [length]; lia).
    rewrite Hlen.
    assert (Hn : 0 <= len ps) by (unfold len; lia).
    split; [| split; [| split; [| split; reflexivity]]].
    + subst s. rewrite wrap16_add_l. f_equal. lia.
    + destruct (Z.ltb_spec s (last c)) as [Hwrap | Hfwd].
      * assert (last c = 65535 /\ s = 0) as [Hmax ->].
        { subst s. unfold wrap16 in *.
          Z.to_euclidean_division_equations. lia. }
        rewrite Hmax, wrap16_add_l.
        replace (65535 + (1 + len ps)) with (0 + len ps + 1 * 65536) by lia.
        rewrite Z.div_add by lia. f_equal. lia.
      * assert (s = last c + 1).
        { subst s. unfold wrap16 in *.
          Z.to_euclidean_division_equations. lia. }
        f_equal. f_equal. f_equal. lia.
    + unfold wrap32. rewrite Zplus_mod_idemp_l. f_equal. lia.
Qed.

(** X19: a stream that arrives in order, from any first sequence number
    and across any number of wrap-arounds, is counted without loss: after
    its [1 + n] packets on a fresh cache, [GetStats] reports [1 + n]
    expected packets, none lost, and the extended sequence number
    [s + n] of the last one (both modulo 2^32). *)
Theorem in_order_stream
    (s capacity : Z) (p : list byte) (ps : list (list byte)) :
  0 <= s < 65536 ->
  fst (GetStats false
         (run (stores (consecutive s (p :: ps))) (fresh capacity))) =
    Ret (wrap32 (1 + len ps), 0, 0, wrap32 (s + len ps)).
Proof.
  intros Hs.
  set (c := run (stores (consecutive s (p :: ps))) (fresh capacity)).
  assert (Hstats : statsOnly c =
            foldl (fun st sb => snd (updateStats (fst sb) st))
              (mkCache s 0 true 1 0 0 0 0 0 [])
              (consecutive (wrap16 (s + 1)) ps)).
  { subst c. rewrite stores_statsOnly. reflexivity. }
  destruct (consecutive_stats ps (mkCache s 0 true 1 0 0 0 0 0 []))
    as (Hl & Hc & He & Hlo & Ht).
  { unfold stats_ok. cbn. lia. }
  { reflexivity. }
  cbn [last cycle expected lost totalLost] in Hl, Hc, He, Hlo, Ht.
  rewrite <- Hstats in Hl, Hc, He, Hlo, Ht.
  cbn [last cycle expected lost totalLost statsOnly] in Hl, Hc, He, Hlo, Ht.
  unfold GetStats. run_M. cbn [fst].
  fold (extSeqno c).
  rewrite extSeqno_value
    by (rewrite ?Hl, ?Hc; apply wrap16_range).
  rewrite Hl, Hc, He, Hlo, Ht. cbn [Z.add].
  assert (Hn : 0 <= len ps) by (unfold len; lia).
  do 2 f_equal. 
  unfold wrap16, wrap32. rewrite Z.add_0_l.
  Z.to_euclidean_division_equations. lia.
Qed.

Lemma in_order_stream_witness :
  fst (GetStats false
         (run (stores (consecutive 65535 [[x01]; [x02]; [x03]])) (fresh 2))) =
    Ret (wrap32 (1 + len [[x02]; [x03]]), 0, 0,
         wrap32 (65535 + len [[x02]; [x03]])).
Proof. apply (in_order_stream 65535 2 [x01] [[x02]; [x03]]). lia. Defined.

(** ** The window of a stream *)

Lemma set_windowOnly (seqno : Z) (c : Cache) :
  windowOnly (snd (set seqno c)) = snd (set seqno (windowOnly c)).
Proof.
  unfold set. run_M. cbn [first bitmap windowOnly].
  destruct ((bitmap c =? 0) || seqnoInvalid seqno (first c));
    [reflexivity |].
  destruct (negb (Z.land (wrap16 (seqno - first c)) 32768 =? 0));
    [reflexivity |].
  destruct (wrap16 (seqno - first c) <? 32); reflexivity.
Qed.

(** Whatever becomes of the call, the window that [Store] leaves is the
    one [set] makes of it. *)
Lemma Store_windowOnly (seqno : Z) (buf : list byte) (c : Cache) :
  windowOnly (snd (Store seqno buf c)) = snd (set seqno (windowOnly c)).
Proof.
  rewrite <- set_windowOnly.
  transitivity (windowOnly (beforeWrite seqno c)).
  - rewrite Store_unfold. run_M. unfold writeEntry. run_M.
    destruct (index (entries (beforeWrite seqno c))
                    (tail (beforeWrite seqno c))); try reflexivity.
    destruct (wrap16 (len (entries (beforeWrite seqno c))) =? 0);
      reflexivity.
  - unfold beforeWrite.
    destruct (updateStats_ret seqno c) as (_ & Hf & Hb & _).
    rewrite (set_windowOnly seqno (snd (updateStats seqno c))).
    rewrite (set_windowOnly seqno c).
    unfold windowOnly. rewrite Hf, Hb. reflexivity.
Qed.

Lemma stores_windowOnly (ss : list (Z * list byte)) (c : Cache) :
  windowOnly (run (stores ss) c) =
    foldl (fun w sb => snd (set (fst sb) w)) (windowOnly c) ss.
Proof.
  revert c. induction ss as [| [s p] ss IH]; intros c; [reflexivity |].
  change (run (stores ((s, p) :: ss)) c)
    with (run (stores ss) (snd (Store s p c))).
  rewrite IH, Store_windowOnly. reflexivity.
Qed.

Lemma ones_uint32 (m : Z) : 0 <= m <= 32 -> 0 <= Z.ones m < 4294967296.
Proof.
  intros Hm. rewrite Z.ones_equiv.
  assert (0 < 2 ^ m) by (apply Z.pow_pos_nonneg; lia).
  assert (2 ^ m <= 2 ^ 32) by (apply Z.pow_le_mono_r; lia).
  change (2 ^ 32) with 4294967296 in *. lia.
Qed.

(** A window whose [m] first places are all marked, after the packets
    that follow them in order: the marks grow up to 32 places, then the
    window slides one place for each packet. *)
Lemma consecutive_window (ps : list (list byte)) (w : Cache) (m : Z) :
  0 <= first w < 65536 -> 1 <= m <= 32 -> bitmap w = Z.ones m ->
  let w' := foldl (fun w sb => snd (set (fst sb) w)) w
              (consecutive (wrap16 (first w + m)) ps) in
  bitmap w' = Z.ones (Z.min 32 (m + len ps)) /\
  first w' = wrap16 (first w + (m + len ps - Z.min 32 (m + len ps))).
Proof.
  revert w m. induction ps as [| p ps IH]; intros w m Hf Hm Hb.
  - cbn [consecutive foldl]. unfold len. cbn [length Z.of_nat].
    rewrite Z.add_0_r, Z.min_r by lia.
    rewrite Z.sub_diag, Z.add_0_r, wrap16_small by lia.
    split; [exact Hb | reflexivity].
  - cbn [consecutive foldl fst].
    set (x := wrap16 (first w + m)).
    pose proof (wrap16_range (first w + m)) as Hx. fold x in Hx.
    assert (Hd : wrap16 (x - first w) = m).
    { subst x. rewrite wrap16_sub_l.
      replace (first w + m - first w) with m by lia.
      apply wrap16_small. lia. }
    assert (Hw : window_ok w).
    { split; [exact Hf |]. rewrite Hb. apply ones_uint32. lia. }
    pose proof (set_eval x w Hx Hw) as Hset. cbn zeta in Hset.
    rewrite Hd in Hset.
    assert (Hnz : (bitmap w =? 0) = false).
    { apply Z.eqb_neq. rewrite Hb, Z.ones_equiv.
      assert (2 ^ 1 <= 2 ^ m) by (apply Z.pow_le_mono_r; lia).
      change (2 ^ 1) with 2 in *. lia. }
    assert (Hvalid : seqnoInvalid x (first w) = false).
    { rewrite seqnoInvalid_unfold, Hd.
      destruct (Z.ltb_spec m 32768); [reflexivity | lia]. }
    rewrite Hnz, Hvalid in Hset. cbn [orb] in Hset.
    destruct (Z.leb_spec 32768 m); [lia |].
    assert (Hlen : len (p :: ps) = 1 + len ps)
      by (unfold len; cbn [length]; lia).
    assert (Hn : 0 <= len ps) by (unfold len; lia).
    set (w1 := snd (set x w)) in *.
    destruct (Z.ltb_spec m 32) as [Hgrow | Hslide].
    + assert (Hb1 : bitmap w1 = Z.ones (m + 1)).
      { rewrite Hset. cbn [bitmap with_bitmap]. rewrite Hb.
        rewrite !Z.ones_equiv, Z.pow_add_r by lia. change (2 ^ 1) with 2.
        assert (Hland : Z.land (Z.pred (2 ^ m)) (2 ^ m) = 0).
        { rewrite <- Z.ones_equiv, Z.land_comm, Z.land_ones by lia.
          apply Z.mod_same. assert (0 < 2 ^ m)
            by (apply Z.pow_pos_nonneg; lia). lia. }
        rewrite <- Z.lxor_lor by exact Hland.
        rewrite <- Z.add_nocarry_lxor by exact Hland. lia. }
      assert (Hf1 : first w1 = first w) by (rewrite Hset; reflexivity).
      destruct (IH w1 (m + 1) ltac:(lia) ltac:(lia) Hb1) as [IHb IHf].
      rewrite Hf1 in IHb, IHf.
      replace (wrap16 (first w + (m + 1))) with (wrap16 (x + 1)) in IHb, IHf
        by (subst x; rewrite wrap16_add_l; f_equal; lia).
      rewrite IHb, IHf, Hlen.
      replace (m + 1 + len ps) with (m + (1 + len ps)) by lia.
      split; reflexivity.
    + assert (m = 32) as -> by lia.
      replace (32 - 31) with 1 in Hset by lia.
      assert (Hb1 : bitmap w1 = Z.ones 32).
      { rewrite Hset. cbn [bitmap with_bitmap with_first]. rewrite Hb.
        reflexivity. }
      assert (Hf1 : first w1 = wrap16 (first w + 1))
        by (rewrite Hset; reflexivity).
      destruct (IH w1 32 ltac:(rewrite Hf1; apply wrap16_range)
                  ltac:(lia) Hb1) as [IHb IHf].
      rewrite Hf1 in IHb, IHf.
      replace (wrap16 (wrap16 (first w + 1) + 32)) with (wrap16 (x + 1))
        in IHb, IHf
        by (subst x; rewrite !wrap16_add_l; f_equal; lia).
      rewrite IHb, IHf, Hlen.
      rewrite !Z.min_l by lia. split; [reflexivity |].
      rewrite wrap16_add_l. f_equal. lia.
Qed.

(** [BitmapGet] drains 17 places whatever it finds. *)
Lemma BitmapGet_drains (c : Cache) :
  first (snd (BitmapGet c)) = wrap16 (first c + 17) /\
  bitmap (snd (BitmapGet c)) = Z.shiftr (bitmap c) 17.
Proof.
  unfold BitmapGet. run_M.
  destruct (_ =? 0); [split; reflexivity |].
  destruct (BitmapGet_loop _ _ _) as [[b f] |]; split; reflexivity.
Qed.

(** X20: a stream of at least 17 packets that arrive in order, on a
    fresh cache, leaves nothing to ask for again: [BitmapGet] reports no
    loss, from the start of the window, which is the first packet of the
    stream until 32 packets have arrived and slides by one with every
    packet after that; the call moves the window on by 17 places. *)
Theorem in_order_stream_reports_no_loss
    (s capacity : Z) (p : list byte) (ps : list (list byte)) :
  0 <= s < 65536 -> 16 <= len ps ->
  let c := run (stores (consecutive s (p :: ps))) (fresh capacity) in
  let f := wrap16 (s + (1 + len ps - Z.min 32 (1 + len ps))) in
  fst (BitmapGet c) = Ret (false, f, 0) /\
  first (snd (BitmapGet c)) = wrap16 (f + 17).
Proof.
  intros Hs Hn c f.
  assert (Hwin : windowOnly c =
            foldl (fun w sb => snd (set (fst sb) w))
              (mkCache 0 0 false 0 0 0 s 1 0 [])
              (consecutive (wrap16 (s + 1)) ps)).
  { subst c. rewrite stores_windowOnly. reflexivity. }
  destruct (consecutive_window ps (mkCache 0 0 false 0 0 0 s 1 0 []) 1)
    as [Hb Hf]; [exact Hs | lia | reflexivity |].
  cbn [first bitmap] in Hb, Hf. rewrite <- Hwin in Hb, Hf.
  cbn [first bitmap windowOnly] in Hb, Hf. fold f in Hf.
  destruct (BitmapGet_drains c) as [Hdrain _].
  rewrite Hdrain, Hf. split; [| reflexivity].
  destruct (BitmapGet_result c) as [[_ Hres] | (Hpos & _ & _)].
  - rewrite Hf. apply wrap16_range.
  - rewrite Hres, Hf. reflexivity.
  - assert (Hz : missing c = 0); [| lia].
    apply Z.bits_inj'. intros i Hi.
    rewrite missing_bits, Z.bits_0, Hb by exact Hi.
    destruct (Z.ltb_spec i 17); [| apply andb_false_r].
    rewrite Z.testbit_ones_nonneg by lia.
    destruct (Z.ltb_spec i (Z.min 32 (1 + len ps))); [reflexivity | lia].
Qed.

Lemma in_order_stream_reports_no_loss_witness :
  let c := run (stores (consecutive 65530
                  ([x00] :: replicate 16 [x01]))) (fresh 4) in
  let f := wrap16 (65530 + (1 + len (replicate 16 [x01])
                           - Z.min 32 (1 + len (replicate 16 [x01])))) in
  fst (BitmapGet c) = Ret (false, f, 0) /\
  first (snd (BitmapGet c)) = wrap16 (f + 17).
Proof.
  apply (in_order_stream_reports_no_loss 65530 4 [x00] (replicate 16 [x01])).
  - lia.
  - vm_compute. discriminate.
Defined.

(** ** Rings that Store cannot use *)

(** [Store] on a ring whose length is 0 as a [uint16]: the slot is out
    of range, or the remainder that moves [tail] divides by zero. *)
Lemma Store_degenerate (seqno : Z) (buf : list byte) (c : Cache) :
  wrap16 (len (entries c)) = 0 ->
  fst (Store seqno buf c) = Panic /\
  tail (snd (Store seqno buf c)) = tail c.
Proof.
  intros Hlen. rewrite Store_unfold.
  destruct (updateStats_ret seqno c) as (_ & _ & _ & Ht1 & He1 & _).
  destruct (set_ret seqno (snd (updateStats seqno c)))
    as (_ & _ & _ & _ & _ & _ & _ & Ht2 & He2).
  fold (beforeWrite seqno c) in Ht2, He2.
  unfold writeEntry. run_M. rewrite He2, He1, Ht2, Ht1, Hlen.
  assert (Ht : tail (beforeWrite seqno c) = tail c) by congruence.
  unfold index.
  destruct ((0 <=? tail c) && (tail c <? len (entries c)));
    [destruct (entries c !! Z.to_nat (tail c)) |];
    cbn; split; first [reflexivity | exact Ht].
Qed.

(** X21: a ring without slots, as [New(0)] builds it, takes no packet:
    every [Store] and every [GetLast] panics on it and [Get] finds
    nothing.  [Store] has by then counted the packet: the statistics
    are those of a successful call. *)
Theorem empty_ring_takes_no_packet
    (seqno : Z) (buf out : list byte) (c : Cache) :
  entries c = [] ->
  fst (Store seqno buf c) = Panic /\
  statsOnly (snd (Store seqno buf c)) = snd (updateStats seqno (statsOnly c)) /\
  GetLast out c = (Panic, c) /\
  Get seqno out c = (Ret (0, out), c).
Proof.
  intros Hempty.
  split; [apply Store_degenerate; rewrite Hempty; reflexivity |].
  split; [apply Store_statsOnly |].
  unfold GetLast, Get. run_M. rewrite Hempty.
  split; [| reflexivity].
  pose proof (wrap16_range (tail c - 1)) as Hi.
  change (wrap16 (len [])) with 0.
  destruct (Z.geb_spec (wrap16 (tail c - 1)) 0); [reflexivity | lia].
Qed.

Lemma empty_ring_takes_no_packet_witness :
  New 0 = Ret (Some (fresh 0)) /\
  fst (Store 7 [x01] (fresh 0)) = Panic /\
  statsOnly (snd (Store 7 [x01] (fresh 0))) =
    snd (updateStats 7 (statsOnly (fresh 0))) /\
  GetLast [x00] (fresh 0) = (Panic, fresh 0) /\
  Get 7 [x00] (fresh 0) = (Ret (0, [x00]), fresh 0).
Proof.
  split; [reflexivity |].
  apply (empty_ring_takes_no_packet 7 [x01] [x00] (fresh 0)). reflexivity.
Defined.

(** X22: [Resize] has not the guard of [New]: it accepts the capacity
    of 65536 slots that [New] refuses, and on the ring it leaves every
    [Store] panics, [tail] staying where it was. *)
Theorem Resize_beyond_uint16_breaks_Store
    (seqno : Z) (buf : list byte) (c : Cache) :
  resizable c ->
  New 65536 = Ret None /\
  fst (Resize 65536 c) = Ret tt /\
  len (entries (snd (Resize 65536 c))) = 65536 /\
  fst (Store seqno buf (snd (Resize 65536 c))) = Panic /\
  tail (snd (Store seqno buf (snd (Resize 65536 c)))) =
    tail (snd (Resize 65536 c)).
Proof.
  intros (Htail & Hlen & Hbufs). split; [reflexivity |]. unfold Resize.
  rewrite resize_eval
    by (assumption || (apply allocatable_small; lia)).
  cbn [fst snd].
  assert (Hl : len (entries (resized 65536 c)) = 65536)
    by (apply resized_len; lia).
  split; [reflexivity |]. split; [exact Hl |].
  apply Store_degenerate. rewrite Hl. reflexivity.
Qed.

Lemma Resize_beyond_uint16_breaks_Store_witness :
  New 65536 = Ret None /\
  fst (Resize 65536 (fresh 4)) = Ret tt /\
  len (entries (snd (Resize 65536 (fresh 4)))) = 65536 /\
  fst (Store 7 [x01] (snd (Resize 65536 (fresh 4)))) = Panic /\
  tail (snd (Store 7 [x01] (snd (Resize 65536 (fresh 4))))) =
    tail (snd (Resize 65536 (fresh 4))).
Proof.
  apply (Resize_beyond_uint16_breaks_Store 7 [x01] (fresh 4)).
  destruct (fresh_inv 4 ltac:(lia)) as [[Htail Hlen] Hbufs].
  repeat split; try assumption; lia.
Defined.

(** ** Loss against expectation *)

Lemma BitmapGet_statsOnly (c : Cache) :
  statsOnly (snd (BitmapGet c)) = statsOnly c.
Proof.
  unfold BitmapGet. run_M.
  destruct (_ =? 0); [reflexivity |].
  destruct (BitmapGet_loop _ _ _) as [[b f] |]; reflexivity.
Qed.

Lemma growth_nonneg (o : op) : 0 <= growth o.
Proof.
  destruct o; cbn [growth]; try lia.
  destruct (n <=? 0); [lia | apply wrap32_range].
Qed.

(** One call keeps [lost] between 0 and [expected], as long as
    [expected] has room for what the call may add. *)
Lemma exec_lost_le_expected (o : op) (c : Cache) :
  0 <= lost c <= expected c -> expected c + growth o < 4294967296 ->
  0 <= lost (exec o c) <= expected (exec o c) /\
  expected (exec o c) <= expected c + growth o.
Proof.
  intros Hle Hroom.
  assert (Hsame : forall c', statsOnly c' = statsOnly c ->
            0 <= lost c' <= expected c' /\
            expected c' <= expected c + growth o).
  { intros c' Heq.
    change (lost c') with (lost (statsOnly c')).
    change (expected c') with (expected (statsOnly c')).
    rewrite Heq. cbn [lost expected statsOnly].
    pose proof (growth_nonneg o). lia. }
  destruct o as [seqno buf | n | seqno result | result | seqno idx result
                | capacity | capacity | | reset]; cbn [exec growth] in *.
  - change (lost (snd (Store seqno buf c)))
      with (lost (statsOnly (snd (Store seqno buf c)))).
    change (expected (snd (Store seqno buf c)))
      with (expected (statsOnly (snd (Store seqno buf c)))).
    rewrite Store_statsOnly, <- updateStats_statsOnly.
    cbn [lost expected statsOnly].
    unfold updateStats. run_M.
    destruct (negb (lastValid c) || seqnoInvalid seqno (last c)).
    + cbn. rewrite wrap32_small by lia. lia.
    + destruct (negb (Z.land (wrap16 (last c - seqno)) 32768 =? 0))
        eqn:Hahead.
      * destruct (ahead_gap seqno (last c) Hahead) as [Hgap ->].
        destruct (seqno <? last c); cbn;
          rewrite !wrap32_small by lia; lia.
      * destruct (Z.gtb_spec (lost c) 0); cbn;
          rewrite ?wrap32_small by lia; lia.
  - unfold Expect. run_M.
    destruct (Z.leb_spec n 0); cbn; [lia |].
    pose proof (wrap32_range n).
    rewrite (wrap32_small (expected c + wrap32 n)) by lia. lia.
  - apply Hsame. apply (lookups_counters c seqno 0 result).
  - apply Hsame. apply (lookups_counters c 0 0 result).
  - apply Hsame. apply (lookups_counters c seqno idx result).
  - apply Hsame. apply resize_counters.
  - apply Hsame. apply ResizeCond_counters.
  - apply Hsame. apply BitmapGet_statsOnly.
  - unfold GetStats. run_M. destruct reset; cbn; lia.
Qed.

Lemma run_lost_le_expected (os : list op) (c : Cache) :
  0 <= lost c <= expected c ->
  expected c + total_growth os < 4294967296 ->
  0 <= lost (run os c) <= expected (run os c) /\
  expected (run os c) <= expected c + total_growth os.
Proof.
  revert c. induction os as [| o os IH]; intros c Hle Hroom.
  - cbn in *. lia.
  - cbn [total_growth foldr] in Hroom. fold (total_growth os) in Hroom.
    assert (Hg : 0 <= total_growth os).
    { clear. induction os as [| o os IH]; cbn; [lia |].
      pose proof (growth_nonneg o). fold (total_growth os). lia. }
    destruct (exec_lost_le_expected o c Hle ltac:(lia)) as [Hle1 Hup1].
    change (run (o :: os) c) with (run os (exec o c)).
    destruct (IH (exec o c) Hle1 ltac:(lia)) as [Hle' Hup'].
    cbn [total_growth foldr]. fold (total_growth os). lia.
Qed.

(** X23: the loss count never exceeds the count of expected packets:
    after any sequence of calls on a fresh cache, [0 <= lost <=
    expected], as long as [expected] has not had the chance to overflow
    (each [Store] may add up to 32768 to it, each [Expect] its
    argument). *)
Theorem lost_never_exceeds_expected (capacity : Z) (os : list op) :
  total_growth os < 4294967296 ->
  0 <= lost (run os (fresh capacity)) <= expected (run os (fresh capacity)) /\
  expected (run os (fresh capacity)) <= total_growth os.
Proof.
  intros Hroom.
  apply (run_lost_le_expected os (fresh capacity)); cbn [lost expected fresh];
    lia.
Qed.

Lemma lost_never_exceeds_expected_witness :
  0 <= lost (run [OpStore 1 []; OpStore 9 []; OpExpect 3; OpStore 5 []]
                 (fresh 2))
    <= expected (run [OpStore 1 []; OpStore 9 []; OpExpect 3; OpStore 5 []]
                     (fresh 2)) /\
  expected (run [OpStore 1 []; OpStore 9 []; OpExpect 3; OpStore 5 []]
                (fresh 2))
    <= total_growth [OpStore 1 []; OpStore 9 []; OpExpect 3; OpStore 5 []].
Proof.
  apply (lost_never_exceeds_expected 2
           [OpStore 1 []; OpStore 9 []; OpExpect 3; OpStore 5 []]).
  vm_compute. reflexivity.
Defined.
